(** * PhotoGPT retrieval engine: a shallow embedding of
    [src/faiss_utils.py], [src/online_query.py], [src/person_manager.py]
    and the semantic-search gate of [app.py].

    Cosine similarities and distances, which the code holds as floats, are
    modelled as exact rationals [Q]; [search_with_threshold_by] also takes
    the arithmetic of the similarity as a parameter, so that exact and
    NumPy's rounded float arithmetic can be compared.  Python dicts (insertion ordered, with
    unique keys) are association lists.  Effectful methods run in a small
    state-and-exception monad whose state is the object (and the file
    system) they mutate; an exception keeps the state reached when it is
    raised, as Python does. *)

From Stdlib Require Import String Ascii.
From Stdlib Require Import List ZArith QArith Qround Qabs Qminmax Bool Lia Lqa.
From Stdlib Require Import Permutation Sorted.
Import ListNotations.

(* ------------------------------------------------------------------ *)
(** ** Python runtime pieces *)

Module Py.

Inductive exn :=
| ValueError
| FileNotFoundError
| OSError
| IndexError
| TypeError
| AttributeError
| AssertionError
| RuntimeError.

Definition exn_str (e : exn) : string :=
  match e with
  | ValueError => "ValueError"
  | FileNotFoundError => "FileNotFoundError"
  | OSError => "OSError"
  | IndexError => "IndexError"
  | TypeError => "TypeError"
  | AttributeError => "AttributeError"
  | AssertionError => "AssertionError"
  | RuntimeError => "RuntimeError"
  end.

(** Result of a Python computation: a value or a raised exception. *)
Inductive outcome (A : Type) :=
| Ok (a : A)
| Raise (e : exn).
Arguments Ok {A} a.
Arguments Raise {A} e.

Definition obind {A B} (m : outcome A) (k : A -> outcome B) : outcome B :=
  match m with
  | Ok a => k a
  | Raise e => Raise e
  end.

Notation "'let?' x ':=' m 'in' k" := (obind m (fun x => k))
  (at level 200, x name, m at level 100, k at level 200).

(** Stateful methods: state in, outcome and new state out. *)
Definition M (S A : Type) := S -> outcome A * S.

Definition ret {S A} (a : A) : M S A := fun s => (Ok a, s).
Definition raise {S A} (e : exn) : M S A := fun s => (Raise e, s).
Definition bind {S A B} (m : M S A) (k : A -> M S B) : M S B :=
  fun s => match m s with
           | (Ok a, s') => k a s'
           | (Raise e, s') => (Raise e, s')
           end.
Definition get {S} : M S S := fun s => (Ok s, s).
Definition put {S} (s : S) : M S unit := fun _ => (Ok tt, s).
Definition lift {S A} (o : outcome A) : M S A := fun s => (o, s).

Notation "'let*' x ':=' m 'in' k" := (bind m (fun x => k))
  (at level 200, x name, m at level 100, k at level 200).
Notation "m ;; k" := (bind m (fun _ => k)) (at level 100, right associativity).

(** [list.sort] / [sorted] are stable: [insert_by before x l] puts [x]
    in front of the first element it may precede. *)
Fixpoint insert_by {A} (before : A -> A -> bool) (x : A) (l : list A) : list A :=
  match l with
  | [] => [x]
  | y :: ys => if before x y then x :: y :: ys else y :: insert_by before x ys
  end.

Definition sort_by {A} (before : A -> A -> bool) (l : list A) : list A :=
  fold_right (insert_by before) [] l.

(** [l.sort(key=key, reverse=True)]: descending key, equal keys keep their
    original order. *)
Definition sort_desc_by {A} (key : A -> Q) (l : list A) : list A :=
  sort_by (fun x y => Qle_bool (key y) (key x)) l.

(** [sorted(l)] on strings: code-point order. *)
Definition str_before (x y : string) : bool :=
  match String.compare x y with Gt => false | _ => true end.

(** Float comparison [a < b]. *)
Definition Qlt_bool (a b : Q) : bool := negb (Qle_bool b a).

(** [sum(l)]: starts at 0 and adds from the left. *)
Definition qsum (l : list Q) : Q := fold_left Qplus l 0.

(** Python dicts with string keys. *)
Fixpoint dict_get {V} (k : string) (d : list (string * V)) : option V :=
  match d with
  | [] => None
  | (k', v) :: d' => if String.eqb k' k then Some v else dict_get k d'
  end.

Definition dict_mem {V} (k : string) (d : list (string * V)) : bool :=
  match dict_get k d with Some _ => true | None => false end.

(** In-place update of the entry under [k] (keys are unique). *)
Definition dict_update {V} (k : string) (f : V -> V) (d : list (string * V))
  : list (string * V) :=
  map (fun kv => if String.eqb (fst kv) k then (fst kv, f (snd kv)) else kv) d.

(** [d[k] = v]: overwrite in place, or append a new key at the end. *)
Definition dict_set {V} (k : string) (v : V) (d : list (string * V))
  : list (string * V) :=
  if dict_mem k d then dict_update k (fun _ => v) d else d ++ [(k, v)].

Definition dict_keys {V} (d : list (string * V)) : list string := map fst d.
Definition dict_values {V} (d : list (string * V)) : list V := map snd d.

(** [l[i]] with Python's negative indices. *)
Definition py_index {A} (l : list A) (i : Z) : outcome A :=
  let n := Z.of_nat (length l) in
  let j := if (0 <=? i)%Z then i else (n + i)%Z in
  if (0 <=? j)%Z then
    match nth_error l (Z.to_nat j) with
    | Some a => Ok a
    | None => Raise IndexError
    end
  else Raise IndexError.

(** Truthiness of an optional string ([None] and [""] are false). *)
Definition truthy (o : option string) : bool :=
  match o with
  | Some s => negb (String.eqb s "")
  | None => false
  end.

Definition str_or (o : option string) (dflt : string) : string :=
  match o with
  | Some s => if String.eqb s "" then dflt else s
  | None => dflt
  end.

(** [str.strip()] on the ASCII whitespace of [str.isspace]
    (9-13 and 28-32). *)
Definition is_space (c : ascii) : bool :=
  let n := nat_of_ascii c in
  ((9 <=? n) && (n <=? 13)) || ((28 <=? n) && (n <=? 32)).

Fixpoint lstrip (s : string) : string :=
  match s with
  | EmptyString => EmptyString
  | String c s' => if is_space c then lstrip s' else s
  end.

Fixpoint srev (s : string) : string :=
  match s with
  | EmptyString => EmptyString
  | String c s' => String.append (srev s') (String c EmptyString)
  end.

Definition strip (s : string) : string := srev (lstrip (srev (lstrip s))).

(** [os.path.dirname]: the part before the last '/', with trailing
    slashes removed unless it consists of slashes only. *)
Fixpoint drop_to_slash (r : string) : string :=
  match r with
  | EmptyString => EmptyString
  | String c r' => if Ascii.eqb c "/"%char then r else drop_to_slash r'
  end.

Fixpoint all_slashes (s : string) : bool :=
  match s with
  | EmptyString => true
  | String c s' => Ascii.eqb c "/"%char && all_slashes s'
  end.

Fixpoint drop_slashes (r : string) : string :=
  match r with
  | String c r' => if Ascii.eqb c "/"%char then drop_slashes r' else r
  | EmptyString => EmptyString
  end.

Definition dirname (p : string) : string :=
  let head := srev (drop_to_slash (srev p)) in
  if all_slashes head then head else srev (drop_slashes (srev head)).

(** Decimal digits of a natural number (for f-string messages). *)
Fixpoint digits_aux (fuel : nat) (n : Z) (acc : string) : string :=
  match fuel with
  | O => acc
  | S f =>
      let acc' := String (ascii_of_nat (48 + Z.to_nat (n mod 10))) acc in
      if (n <? 10)%Z then acc' else digits_aux f (n / 10)%Z acc'
  end.

Definition show_Z (z : Z) : string :=
  if (z <? 0)%Z then String.append "-" (digits_aux 64 (- z) "")
  else digits_aux 64 z "".

(** Stands for the [repr] of a float in an f-string. *)
Definition fmt_float (q : Q) : string :=
  String.append (show_Z (Qnum q))
    (String.append "/" (show_Z (Zpos (Qden q)))).

End Py.
Import Py.

(* ------------------------------------------------------------------ *)
(** ** The FAISS library ([faiss.IndexFlatL2]) used by [faiss_utils.py]

    An external library: its exact search is modelled the way the library
    behaves on one query.  Squared L2 distances, ascending, equal distances
    in ascending id order; when [k] exceeds the number of stored vectors the
    rows are padded with id [-1] and the largest float as distance. *)

Module Faiss.

Definition Emb := list Q.

Record Index := { ix_d : nat; ix_vectors : list Emb }.

Definition ntotal (ix : Index) : nat := length (ix_vectors ix).

Fixpoint sqdist (a b : Emb) : Q :=
  match a, b with
  | x :: a', y :: b' => (x - y) * (x - y) + sqdist a' b'
  | _, _ => 0
  end.

(** [FLT_MAX], the distance reported for padding rows. *)
Definition flt_max : Q := inject_Z 340282346638528859811704183484516925440.

(** Result order of the k-NN heap: by distance, then by id. *)
Definition before_dist_id (a b : Q * Z) : bool :=
  Qlt_bool (fst a) (fst b) || (Qeq_bool (fst a) (fst b) && Z.leb (snd a) (snd b)).

Definition scored (ix : Index) (q : Emb) : list (Q * Z) :=
  combine (map (sqdist q) (ix_vectors ix)) (map Z.of_nat (seq 0 (ntotal ix))).

Definition knn_rows (ix : Index) (q : Emb) (k : nat) : list (Q * Z) :=
  let best := firstn k (sort_by before_dist_id (scored ix q)) in
  best ++ repeat (flt_max, (-1)%Z) (k - length best).

(** [index.search(query, k)] for one query row: [(distances, labels)].
    The Python wrapper asserts the query width and [k > 0]. *)
Definition search (ix : Index) (q : Emb) (k : nat) : outcome (list Q * list Z) :=
  if negb (Nat.eqb (length q) (ix_d ix)) then Raise AssertionError
  else if Nat.eqb k 0 then Raise AssertionError
  else Ok (List.split (knn_rows ix q k)).

End Faiss.
Import Faiss.

(* ------------------------------------------------------------------ *)
(** ** Files on disk *)

Module Files.

(** One metadata record of [metadata.json]; optional keys are read with
    [.get(key, default)] by the code. *)
Record Meta := {
  item_id : Z;
  image_path : string;
  bbox : option (list Z);
  det_score : option Q;
  mode : option string
}.

(** One entry of [person_profiles.json]. *)
Record Profile := { pr_embedding : Emb; pr_selfie_path : string }.

Inductive FileContent :=
| FIndex (ix : Index)
| FMetaJson (m : list Meta)
| FProfilesJson (p : list (string * Profile))
| FOther.

Record FS := { fs_files : list (string * FileContent); fs_dirs : list string }.

(** [os.path.exists]. *)
Definition path_exists (fs : FS) (p : string) : bool :=
  dict_mem p (fs_files fs) || existsb (String.eqb p) (fs_dirs fs).

(** [os.makedirs(d, exist_ok=True)]; [os.makedirs('')] raises
    [FileNotFoundError].  That is the only failure represented: a file at
    [d] or among its parents, and the parents [makedirs] creates, are not;
    [writable_path] delimits the states where this is exact. *)
Definition makedirs (d : string) (fs : FS) : outcome FS :=
  if String.eqb d "" then Raise FileNotFoundError
  else if existsb (String.eqb d) (fs_dirs fs) then Ok fs
  else Ok {| fs_files := fs_files fs; fs_dirs := fs_dirs fs ++ [d] |}.

(** Writing the file [p] ([open(p, 'w')], [faiss.write_index]).  The
    failures of the OS call (a directory at [p], a missing parent) are not
    represented; on a [writable_path] the call succeeds. *)
Definition write_file (p : string) (c : FileContent) (fs : FS) : FS :=
  {| fs_files := dict_set p c (fs_files fs); fs_dirs := fs_dirs fs |}.

(** [faiss.read_index]: anything but an index file is refused. *)
Definition read_index (fs : FS) (p : string) : outcome Index :=
  match dict_get p (fs_files fs) with
  | Some (FIndex ix) => Ok ix
  | Some _ => Raise RuntimeError
  | None => Raise OSError
  end.

(** [json.load(open(p))] of a metadata list. *)
Definition read_meta_json (fs : FS) (p : string) : outcome (list Meta) :=
  match dict_get p (fs_files fs) with
  | Some (FMetaJson m) => Ok m
  | Some _ => Raise ValueError
  | None => Raise OSError
  end.

End Files.
Import Files.

(* ------------------------------------------------------------------ *)
(** ** Floating-point arithmetic of NumPy scalars

    [dist] in [search_with_threshold] is a [np.float32]; [1 - (dist / 2)]
    is computed in [float32] under NumPy 2's promotion rules and in
    [float64] under NumPy 1's.  [round_float fmt x] is [x] rounded to
    nearest, ties to even, in the binary format [fmt], subnormals
    included; overflow does not arise for these values and is not
    represented. *)

Module Float.








End Float.
Import Float.

(* ------------------------------------------------------------------ *)
(** ** [src/faiss_utils.py]: [FaissIndexManager] *)

Module FaissUtils.

Record Manager := {
  embedding_dim : nat;
  index : option Index;
  metadata : list Meta
}.

(** [FaissIndexManager(embedding_dim)]. *)
Definition new_manager (d : nat) : Manager :=
  {| embedding_dim := d; index := None; metadata := [] |}.

Definition set_index (m : Manager) (ix : option Index) : Manager :=
  {| embedding_dim := embedding_dim m; index := ix; metadata := metadata m |}.

Definition set_metadata (m : Manager) (md : list Meta) : Manager :=
  {| embedding_dim := embedding_dim m; index := index m; metadata := md |}.

(** [save_index(index_path)]. *)
Definition save_index (index_path : string) : M (Manager * FS) unit :=
  let* st := get in
  let '(m, fs) := st in
  match index m with
  | None => raise ValueError
  | Some ix =>
      let* fs1 := lift (makedirs (dirname index_path) fs) in
      put (m, write_file index_path (FIndex ix) fs1)
  end.

(** [load_index(index_path)]. *)
Definition load_index (index_path : string) : M (Manager * FS) unit :=
  let* st := get in
  let '(m, fs) := st in
  if negb (path_exists fs index_path) then raise FileNotFoundError
  else
    let* ix := lift (read_index fs index_path) in
    put (set_index m (Some ix), fs).

(** [load_metadata(metadata_path)]. *)
Definition load_metadata (metadata_path : string) : M (Manager * FS) (list Meta) :=
  let* st := get in
  let '(m, fs) := st in
  if negb (path_exists fs metadata_path) then raise FileNotFoundError
  else
    let* md := lift (read_meta_json fs metadata_path) in
    put (set_metadata m md, fs) ;;
    ret md.

(** [search(query_embedding, k)]. *)
Definition search (m : Manager) (q : Emb) (k : nat) : outcome (list Q * list Z) :=
  match index m with
  | None => Raise ValueError
  | Some ix => Faiss.search ix q k
  end.

(** One element of the list returned by [search_with_threshold]. *)
Record MatchResult := {
  face_id : Z;
  similarity : Q;
  distance : Q;
  mr_metadata : option Meta
}.

(** [cosine_similarity = 1 - (dist / 2)]. *)
Definition cosine_of (d : Q) : Q := 1 - d / 2.

(** The loop of [search_with_threshold] over [zip(distances, indices)]. *)
Fixpoint collect (md : list Meta) (thr : Q) (rows : list (Q * Z))
  : outcome (list MatchResult) :=
  match rows with
  | [] => Ok []
  | (dist, idx) :: rows' =>
      if Z.eqb idx (-1) then collect md thr rows'
      else
        let s := cosine_of dist in
        if Qle_bool thr s then
          let? meta :=
            (if Z.ltb idx (Z.of_nat (length md))
             then let? r := py_index md idx in Ok (Some r)
             else Ok None) in
          let? rest := collect md thr rows' in
          Ok ({| face_id := idx; similarity := s; distance := dist;
                 mr_metadata := meta |} :: rest)
        else collect md thr rows'
  end.

(** [search_with_threshold(query_embedding, similarity_threshold, max_results)]. *)
Definition search_with_threshold (m : Manager) (q : Emb) (thr : Q) (max_results : nat)
  : outcome (list MatchResult) :=
  let? dl := search m q max_results in
  let? results := collect (metadata m) thr (combine (fst dl) (snd dl)) in
  Ok (sort_desc_by similarity results).

(** The same loop with the computation of [1 - (dist / 2)] as a
    parameter [cos]: [cosine_of] (exact), or [cosine_float fmt] (NumPy's
    rounding).  The threshold test compares the computed value. *)
Fixpoint collect_by (cos : Q -> Q) (md : list Meta) (thr : Q) (rows : list (Q * Z))
  : outcome (list MatchResult) :=
  match rows with
  | [] => Ok []
  | (dist, idx) :: rows' =>
      if Z.eqb idx (-1) then collect_by cos md thr rows'
      else
        let s := cos dist in
        if Qle_bool thr s then
          let? meta :=
            (if Z.ltb idx (Z.of_nat (length md))
             then let? r := py_index md idx in Ok (Some r)
             else Ok None) in
          let? rest := collect_by cos md thr rows' in
          Ok ({| face_id := idx; similarity := s; distance := dist;
                 mr_metadata := meta |} :: rest)
        else collect_by cos md thr rows'
  end.

Definition search_with_threshold_by (cos : Q -> Q) (m : Manager) (q : Emb) (thr : Q)
    (max_results : nat) : outcome (list MatchResult) :=
  let? dl := search m q max_results in
  let? results := collect_by cos (metadata m) thr (combine (fst dl) (snd dl)) in
  Ok (sort_desc_by similarity results).

(** A two-dimensional [np.ndarray] of floats: [shape[1]] and its rows. *)
Record Array2 := { a_cols : nat; a_rows : list Emb }.

(** [create_index(embeddings)]: a new [IndexFlatL2] of width
    [embedding_dim] holding the rows, in order. *)
Definition create_index (embeddings : Array2) : M (Manager * FS) unit :=
  let* st := get in
  let '(m, fs) := st in
  if negb (Nat.eqb (a_cols embeddings) (embedding_dim m)) then raise ValueError
  else put (set_index m (Some {| ix_d := embedding_dim m;
                                 ix_vectors := a_rows embeddings |}), fs).

(** [save_metadata(metadata, metadata_path)]: [self.metadata] is set
    before the directory is created and the file written. *)
Definition save_metadata (md : list Meta) (metadata_path : string)
  : M (Manager * FS) unit :=
  let* st := get in
  let '(m, fs) := st in
  put (set_metadata m md, fs) ;;
  let* fs1 := lift (makedirs (dirname metadata_path) fs) in
  put (set_metadata m md, write_file metadata_path (FMetaJson md) fs1).

End FaissUtils.
Import FaissUtils.

(* ------------------------------------------------------------------ *)
(** ** [src/online_query.py]: [PhotoRetriever] *)

Module OnlineQuery.

(** The embedding model ([FaceProcessor]) is an external collaborator:
    only the two calls the retriever makes are kept. *)
Record Provider := {
  extract_single_face_embedding : string -> option Emb;
  encode_text : string -> Emb
}.

(** Calls to the model and to the index, in the order they happen. *)
Inductive Event :=
| EvExtractFace (path : string)
| EvEncodeText (text : string)
| EvSearch.

Definition emit (e : Event) : M (list Event) unit :=
  fun tr => (Ok tt, tr ++ [e]).

Record QueryInfo := {
  query_type : string;
  query_text : option string;
  query_selfie : option string;
  query_person : option string;
  query_dim : nat;
  query_threshold : Q
}.

Record FaceInfo := {
  fi_bbox : list Z;
  fi_similarity : Q;
  fi_det_score : Q
}.

(** A matched photo: [faces] only in face mode, [similarity] only in
    full-image mode. *)
Record PhotoInfo := {
  pi_image_path : string;
  pi_faces : option (list FaceInfo);
  pi_similarity : option Q;
  max_similarity : Q;
  avg_similarity : Q;
  num_matches : nat
}.

(** The result dictionary returned by [find_photos] and
    [find_photos_by_embedding]. *)
Record PyResult := {
  success : bool;
  message : string;
  query_info : option QueryInfo;
  matches : list PhotoInfo;
  total_photos : nat
}.

Definition empty_result : PyResult :=
  {| success := false; message := ""; query_info := None; matches := [];
     total_photos := 0 |}.

Definition fail_result (qi : option QueryInfo) (msg : string) : PyResult :=
  {| success := false; message := msg; query_info := qi; matches := [];
     total_photos := 0 |}.

(** Mode of the index: the ['mode'] of the first metadata record, ['face']
    when absent or when the metadata is empty. *)
Definition index_mode (m : Manager) : string :=
  match metadata m with
  | md0 :: _ => match mode md0 with Some s => s | None => "face" end
  | [] => "face"
  end.

(** Full-image branch: one photo per match. *)
Fixpoint full_image_photos (ms : list MatchResult) : outcome (list PhotoInfo) :=
  match ms with
  | [] => Ok []
  | r :: ms' =>
      match mr_metadata r with
      | None => Raise TypeError
      | Some md =>
          let? rest := full_image_photos ms' in
          Ok ({| pi_image_path := image_path md; pi_faces := None;
                 pi_similarity := Some (similarity r);
                 max_similarity := similarity r; avg_similarity := similarity r;
                 num_matches := 1 |} :: rest)
      end
  end.

(** A value of [photo_groups] while grouping. *)
Record Group := {
  g_image_path : string;
  g_faces : list FaceInfo;
  g_max : Q
}.

Definition new_group (p : string) : Group :=
  {| g_image_path := p; g_faces := []; g_max := 0 |}.

Definition face_info (md : Meta) (r : MatchResult) : FaceInfo :=
  {| fi_bbox := match bbox md with Some b => b | None => [0; 0; 0; 0]%Z end;
     fi_similarity := similarity r;
     fi_det_score := match det_score md with Some d => d | None => 1 end |}.

(** One iteration of the grouping loop. *)
Definition add_match (groups : list (string * Group)) (md : Meta) (r : MatchResult)
  : list (string * Group) :=
  let p := image_path md in
  let groups1 := if dict_mem p groups then groups else groups ++ [(p, new_group p)] in
  dict_update p
    (fun g => {| g_image_path := g_image_path g;
                 g_faces := g_faces g ++ [face_info md r];
                 g_max := if Qlt_bool (g_max g) (similarity r)
                          then similarity r else g_max g |})
    groups1.

Fixpoint group_loop (groups : list (string * Group)) (ms : list MatchResult)
  : outcome (list (string * Group)) :=
  match ms with
  | [] => Ok groups
  | r :: ms' =>
      match mr_metadata r with
      | None => Raise TypeError
      | Some md => group_loop (add_match groups md r) ms'
      end
  end.

(** The statistics loop over [photo_groups.values()]. *)
Definition finalize (g : Group) : PhotoInfo :=
  let sims := map fi_similarity (g_faces g) in
  {| pi_image_path := g_image_path g;
     pi_faces := Some (g_faces g);
     pi_similarity := None;
     max_similarity := g_max g;
     avg_similarity := qsum sims / inject_Z (Z.of_nat (length sims));
     num_matches := length (g_faces g) |}.

(** Face-mode grouping; the same code appears in [find_photos] (lines
    168-200) and in [find_photos_by_embedding] (lines 275-308). *)
Definition group_faces (ms : list MatchResult) : outcome (list PhotoInfo) :=
  let? groups := group_loop [] ms in
  Ok (map finalize (dict_values groups)).

(** Common tail of [find_photos] once the query embedding is known. *)
Definition find_photos_tail (m : Manager) (qi : QueryInfo) (qe : Emb) (thr : Q)
    (max_results : nat) : M (list Event) PyResult :=
  emit EvSearch ;;
  let* ms := lift (search_with_threshold m qe thr max_results) in
  match ms with
  | [] =>
      ret (fail_result (Some qi)
             (String.append "No confident matches found (threshold: "
                (String.append (fmt_float thr) "). Try lowering the threshold.")))
  | _ :: _ =>
      let* photos :=
        lift (if String.eqb (index_mode m) "full_image"
              then full_image_photos ms else group_faces ms) in
      let sorted := sort_desc_by max_similarity photos in
      let n := length sorted in
      ret {| success := true;
             message := String.append "Found "
                          (String.append (show_Z (Z.of_nat n))
                             " photos matching your query");
             query_info := Some qi; matches := sorted; total_photos := n |}
  end.

(** [find_photos(selfie_path, text_query, similarity_threshold, max_results)]. *)
Definition find_photos (pv : Provider) (m : Manager) (selfie_path text_query : option string)
    (thr : Q) (max_results : nat) : M (list Event) PyResult :=
  if negb (truthy selfie_path) && negb (truthy text_query) then
    ret (fail_result None "Please provide either a selfie or a text description.")
  else if truthy selfie_path && truthy text_query then
    ret (fail_result None "Please provide only one: selfie OR text description.")
  else if truthy text_query then
    let t := str_or text_query "" in
    emit (EvEncodeText t) ;;
    let qe := encode_text pv t in
    find_photos_tail m
      {| query_type := "text"; query_text := Some t; query_selfie := None;
         query_person := None; query_dim := length qe; query_threshold := thr |}
      qe thr max_results
  else
    let s := str_or selfie_path "" in
    emit (EvExtractFace s) ;;
    match extract_single_face_embedding pv s with
    | None =>
        ret (fail_result None
               "No face detected in selfie or multiple faces found. Please upload a clear selfie with only one face.")
    | Some qe =>
        find_photos_tail m
          {| query_type := "face"; query_text := None; query_selfie := Some s;
             query_person := None; query_dim := length qe; query_threshold := thr |}
          qe thr max_results
    end.

(** [find_photos_by_embedding(query_embedding, similarity_threshold,
    max_results, person_name)]; reading [index.ntotal] for the banner
    fails when no index is loaded. *)
Definition find_photos_by_embedding (m : Manager) (qe : Emb) (thr : Q)
    (max_results : nat) (person_name : option string) : M (list Event) PyResult :=
  match index m with
  | None => raise AttributeError
  | Some _ =>
      let who := str_or person_name "this person" in
      let qi := {| query_type := "registered_person"; query_text := None;
                   query_selfie := None; query_person := person_name;
                   query_dim := length qe; query_threshold := thr |} in
      emit EvSearch ;;
      let* ms := lift (search_with_threshold m qe thr max_results) in
      match ms with
      | [] =>
          ret (fail_result (Some qi)
                 (String.append "No photos found for "
                    (String.append who ". Try lowering the threshold.")))
      | _ :: _ =>
          let* photos := lift (group_faces ms) in
          let sorted := sort_desc_by max_similarity photos in
          let n := length sorted in
          ret {| success := true;
                 message := String.append "Found "
                              (String.append (show_Z (Z.of_nat n))
                                 (String.append " event photo(s) containing " who));
                 query_info := Some qi; matches := sorted; total_photos := n |}
      end
  end.

(** [PhotoRetriever(index_path, metadata_path)]: loads the index, then
    the metadata; a [FileNotFoundError] is re-raised. *)
Definition retriever_init (fs : FS) (index_path metadata_path : string)
  : outcome Manager :=
  let m0 := new_manager 512 in
  match load_index index_path (m0, fs) with
  | (Raise e, _) => Raise e
  | (Ok _, st1) =>
      match load_metadata metadata_path st1 with
      | (Raise e, _) => Raise e
      | (Ok _, (m2, _)) => Ok m2
      end
  end.

End OnlineQuery.
Import OnlineQuery.

(* ------------------------------------------------------------------ *)
(** ** [app.py]: the semantic-search tab *)

Module App.

Inductive UIOutcome :=
| UIError (msg : string)
| UIResult (r : PyResult).

(** The tab refuses an index whose first record is not in full-image mode,
    then calls [find_photos(text_query=..., similarity_threshold=...)]. *)
Definition semantic_search (pv : Provider) (m : Manager) (query : string) (thr : Q)
  : M (list Event) UIOutcome :=
  match metadata m with
  | md0 :: _ =>
      if negb (String.eqb (match mode md0 with Some s => s | None => "face" end)
                 "full_image")
      then ret (UIError "Semantic search requires the index to be built in 'full_image' mode!")
      else let* r := find_photos pv m None (Some query) thr 100 in ret (UIResult r)
  | [] => let* r := find_photos pv m None (Some query) thr 100 in ret (UIResult r)
  end.

End App.
Import App.

(* ------------------------------------------------------------------ *)
(** ** [src/person_manager.py]: [PersonManager] *)

Module PersonManager.

Record PersonManager := {
  profiles_path : string;
  profiles : list (string * Profile)
}.

Record RegResult := { reg_success : bool; reg_message : string }.

Definition reg_fail (msg : string) : RegResult :=
  {| reg_success := false; reg_message := msg |}.

(** [save_profiles()]: whole-file rewrite. *)
Definition save_profiles : M (PersonManager * FS) unit :=
  let* st := get in
  let '(pm, fs) := st in
  let* fs1 := lift (makedirs (dirname (profiles_path pm)) fs) in
  put (pm, write_file (profiles_path pm) (FProfilesJson (profiles pm)) fs1).

(** [register_person(name, selfie_path)]; the [try] block catches any
    exception of the extraction and of [save_profiles]. *)
Definition register_person (pv : Provider) (name selfie_path : string)
  : M (PersonManager * FS) RegResult :=
  let name' := strip name in
  if String.eqb name' "" then ret (reg_fail "Please enter a name")
  else
    let* st := get in
    let '(pm, fs) := st in
    if negb (path_exists fs selfie_path) then
      ret (reg_fail (String.append "Selfie file not found: " selfie_path))
    else
      match extract_single_face_embedding pv selfie_path with
      | None =>
          ret (reg_fail "No face detected in selfie. Please upload a clear selfie with one face.")
      | Some e =>
          let pm1 := {| profiles_path := profiles_path pm;
                        profiles := dict_set name'
                                      {| pr_embedding := e; pr_selfie_path := selfie_path |}
                                      (profiles pm) |} in
          put (pm1, fs) ;;
          fun st1 =>
            match save_profiles st1 with
            | (Ok _, st2) =>
                (Ok {| reg_success := true;
                       reg_message := String.append "✅ Successfully registered "
                                        (String.append name' "!") |}, st2)
            | (Raise ex, st2) =>
                (Ok (reg_fail (String.append "Error processing selfie: " (exn_str ex))), st2)
            end
      end.

(** [get_all_names()]: the keys, sorted. *)
Definition get_all_names (pm : PersonManager) : list string :=
  sort_by str_before (dict_keys (profiles pm)).

(** The dict built by [self.profiles[name] = ...] over the pairs of a JSON
    object, in order. *)
Definition dict_of_pairs {V} (d : list (string * V)) : list (string * V) :=
  fold_left (fun acc kv => dict_set (fst kv) (snd kv) acc) d [].

(** [load_profiles()].  [self.profiles] is reset to [{}] after
    [json.load] and before [data.items()], so a JSON list empties the store
    before [AttributeError] is raised; a file that is not JSON raises
    [ValueError] from [json.load]; a directory cannot be opened. *)
Definition load_profiles : M (PersonManager * FS) unit :=
  let* st := get in
  let '(pm, fs) := st in
  let p := profiles_path pm in
  if path_exists fs p then
    match dict_get p (fs_files fs) with
    | Some (FProfilesJson d) =>
        put ({| profiles_path := p; profiles := dict_of_pairs d |}, fs)
    | Some (FMetaJson _) =>
        put ({| profiles_path := p; profiles := [] |}, fs) ;; raise AttributeError
    | Some (FIndex _) | Some FOther => raise ValueError
    | None => raise OSError
    end
  else put ({| profiles_path := p; profiles := [] |}, fs).

(** [PersonManager(profiles_path)]. *)
Definition init_person_manager (p : string) (fs : FS) : outcome PersonManager :=
  match load_profiles ({| profiles_path := p; profiles := [] |}, fs) with
  | (Ok _, (pm, _)) => Ok pm
  | (Raise e, _) => Raise e
  end.

(** The case-insensitive lookups compare [stored_name.lower()] with
    [name.lower()]; [str.lower] is a parameter [lower] of theirs. *)
Fixpoint find_profile_ci (lower : string -> string) (name : string)
    (d : list (string * Profile)) : option (string * Profile) :=
  match d with
  | [] => None
  | (stored_name, profile) :: d' =>
      if String.eqb (lower stored_name) (lower name) then Some (stored_name, profile)
      else find_profile_ci lower name d'
  end.

(** [get_profile(name)]: [{'name', 'embedding', 'selfie_path'}]. *)
Definition get_profile (lower : string -> string) (pm : PersonManager) (name : string)
  : option (string * Profile) :=
  find_profile_ci lower name (profiles pm).

Fixpoint find_embedding_ci (lower : string -> string) (name : string)
    (d : list (string * Profile)) : option Emb :=
  match d with
  | [] => None
  | (stored_name, profile) :: d' =>
      if String.eqb (lower stored_name) (lower name) then Some (pr_embedding profile)
      else find_embedding_ci lower name d'
  end.

(** [get_person_embedding(name)]. *)
Definition get_person_embedding (lower : string -> string) (pm : PersonManager)
    (name : string) : option Emb :=
  find_embedding_ci lower name (profiles pm).

(** [del d[k]]. *)
Definition dict_del {V} (k : string) (d : list (string * V)) : list (string * V) :=
  filter (fun kv => negb (String.eqb (fst kv) k)) d.

(** [remove_person(name)]: exact key; the file is rewritten only when an
    entry was deleted. *)
Definition remove_person (name : string) : M (PersonManager * FS) bool :=
  let* st := get in
  let '(pm, fs) := st in
  if dict_mem name (profiles pm) then
    put ({| profiles_path := profiles_path pm;
            profiles := dict_del name (profiles pm) |}, fs) ;;
    save_profiles ;;
    ret true
  else ret false.

End PersonManager.
Import PersonManager.

(* ------------------------------------------------------------------ *)
(** ** [src/offline_indexing.py]: [process_event_photos] *)

Module Offline.

Local Open Scope string_scope.

(** [str.endswith]. *)
Definition ends_with (suffix s : string) : bool :=
  let n := String.length s in
  let k := String.length suffix in
  Nat.leb k n && String.eqb (substring (n - k) k s) suffix.

(** [os.path.join(a, b)]. *)
Definition path_join (a b : string) : string :=
  match b with
  | String c _ =>
      if Ascii.eqb c "/"%char then b
      else if String.eqb a "" || ends_with "/" a then String.append a b
      else String.append a (String.append "/" b)
  | EmptyString =>
      if String.eqb a "" || ends_with "/" a then a else String.append a "/"
  end.

(** [image_paths]: for each extension in turn, the entries that
    [Path(event_photos_dir).rglob('*' + ext)] yields, given as [entries]
    (the recursive listing in walk order, as [str(p)]); POSIX matching is
    case-sensitive. *)
Definition find_images (entries exts : list string) : list string :=
  flat_map (fun ext => filter (ends_with ext) entries) exts.

Definition default_exts : list string := [".jpg"; ".jpeg"; ".png"; ".bmp"].

(** One face of [FaceProcessor.detect_faces]. *)
Record Detection := { det_bbox : list Z; det_embedding : Emb; det_conf : Q }.

(** The two model calls of the offline pipeline; both may raise. *)
Record Extractor := {
  get_full_image_embedding : string -> outcome Emb;
  detect_faces : string -> outcome (list Detection)
}.

Definition full_meta (i : Z) (p : string) : Meta :=
  {| item_id := i; image_path := p; bbox := None; det_score := None;
     mode := Some "full_image"%string |}.

Definition face_meta (i : Z) (p : string) (d : Detection) : Meta :=
  {| item_id := i; image_path := p; bbox := Some (det_bbox d);
     det_score := Some (det_conf d); mode := Some "face"%string |}.

(** [(all_embeddings, all_metadata, item_id)] while looping. *)
Definition Acc : Type := (list Emb * list Meta * Z)%type.

Definition add_face (p : string) (acc : Acc) (d : Detection) : Acc :=
  let '(es, ms, i) := acc in
  ((es ++ [det_embedding d])%list, (ms ++ [face_meta i p d])%list, (i + 1)%Z).

(** One image of the loop; the [try] block drops an image whose model
    call raises. *)
Definition index_step (ex : Extractor) (mode_ : string) (acc : Acc) (p : string) : Acc :=
  if String.eqb mode_ "full_image" then
    match get_full_image_embedding ex p with
    | Ok e => let '(es, ms, i) := acc in ((es ++ [e])%list, (ms ++ [full_meta i p])%list, (i + 1)%Z)
    | Raise _ => acc
    end
  else
    match detect_faces ex p with
    | Ok faces => fold_left (add_face p) faces acc
    | Raise _ => acc
    end.

Definition index_items (ex : Extractor) (mode_ : string) (paths : list string) : Acc :=
  fold_left (index_step ex mode_) paths ([], [], 0%Z).

(** [np.array(all_embeddings, dtype='float32')] of a non-empty list:
    ragged rows raise [ValueError]. *)
Definition np_array_2d (rows : list Emb) : outcome Array2 :=
  match rows with
  | [] => Raise IndexError
  | r0 :: _ =>
      if forallb (fun r => Nat.eqb (length r) (length r0)) rows
      then Ok {| a_cols := length r0; a_rows := rows |}
      else Raise ValueError
  end.

(** [process_event_photos(event_photos_dir, output_dir, mode,
    image_extensions)], on the file system; the model is built first and
    its construction is not modelled. *)
Definition process_event_photos (ex : Extractor) (entries : list string)
    (output_dir mode_ : string) (exts : list string) : M FS unit :=
  fun fs =>
  let paths := find_images entries exts in
  match paths with
  | [] => (Ok tt, fs)
  | _ :: _ =>
      let '(embs, metas, _) := index_items ex mode_ paths in
      match embs with
      | [] => (Ok tt, fs)
      | _ :: _ =>
          match np_array_2d embs with
          | Raise e => (Raise e, fs)
          | Ok arr =>
              match create_index arr (new_manager 512, fs) with
              | (Raise e, (_, fs1)) => (Raise e, fs1)
              | (Ok _, (m1, fs1)) =>
                  match makedirs output_dir fs1 with
                  | Raise e => (Raise e, fs1)
                  | Ok fs2 =>
                      let index_path := path_join output_dir "faiss.index" in
                      let metadata_path := path_join output_dir "metadata.json" in
                      match save_index index_path (m1, fs2) with
                      | (Raise e, (_, fs3)) => (Raise e, fs3)
                      | (Ok _, st3) =>
                          match save_metadata metas metadata_path st3 with
                          | (Raise e, (_, fs4)) => (Raise e, fs4)
                          | (Ok _, (_, fs4)) => (Ok tt, fs4)
                          end
                      end
                  end
              end
          end
      end
  end.

End Offline.
Import Offline.

(** The per-row test of the [search_with_threshold] loop: a valid label
    whose similarity clears the threshold. *)
Definition keep_row (thr : Q) (row : Q * Z) : bool :=
  negb (Z.eqb (snd row) (-1)) && Qle_bool thr (cosine_of (fst row)).



Fixpoint no_slash (s : string) : bool :=
  match s with
  | EmptyString => true
  | String c s' => negb (Ascii.eqb c "/"%char) && no_slash s'
  end.

(** The part of [s] before its first slash. *)
Fixpoint take_to_slash (s : string) : string :=
  match s with
  | EmptyString => EmptyString
  | String c s' => if Ascii.eqb c "/"%char then EmptyString else String c (take_to_slash s')
  end.

(** [os.path.basename]: the part after the last slash. *)
Definition basename (p : string) : string := srev (take_to_slash (srev p)).

(** A name of a directory entry: not empty, no slash, not [.] or [..]. *)
Definition plain_name (s : string) : bool :=
  negb (String.eqb s "") && no_slash s && negb (String.eqb s ".") &&
  negb (String.eqb s "..").

(** [p] names a file in an existing directory: its directory part is a
    directory (not [''], not a file), its last component is a plain name,
    and [p] is not itself a directory.  On such paths the model's
    [makedirs (dirname p)] and [write_file p] agree with the OS calls,
    which succeed; elsewhere the OS may raise where the model does not. *)
Definition writable_path (fs : FS) (p : string) : bool :=
  let d := dirname p in
  negb (String.eqb d "") && existsb (String.eqb d) (fs_dirs fs) &&
  negb (dict_mem d (fs_files fs)) && negb (existsb (String.eqb p) (fs_dirs fs)) &&
  plain_name (basename p).

(** The [mode] tag the offline loop stores for [mode_]. *)
Definition mode_tag (mode_ : string) : string :=
  if String.eqb mode_ "full_image" then "full_image" else "face".

(* ------------------------------------------------------------------ *)
(** ** Concrete inputs used to exercise the statements *)

Module Samples.

Local Open Scope string_scope.

Definition out_or {A} (o : outcome A) (d : A) : A :=
  match o with Ok a => a | Raise _ => d end.

Definition face_md (i : Z) (p : string) : Meta :=
  {| item_id := i; image_path := p; bbox := None; det_score := None;
     mode := Some "face"%string |}.

(** Four unit vectors of width 2; the first and the last are equal, so
    they tie in distance to any query. *)
Definition ix_a : Index :=
  {| ix_d := 2;
     ix_vectors := [[3#5; -4#5]; [-3#5; 4#5]; [1; 0]; [3#5; -4#5]] |}.

Definition mgr_a : Manager :=
  {| embedding_dim := 2; index := Some ix_a;
     metadata := [face_md 0 "a.jpg"; face_md 1 "b.jpg"; face_md 2 "a.jpg";
                  face_md 3 "c.jpg"] |}.

Definition q_a : Emb := [1; 0].

Definition res_a : list MatchResult :=
  out_or (search_with_threshold mgr_a q_a 0 4) [].

Definition res_a_half : list MatchResult :=
  out_or (search_with_threshold mgr_a q_a (1#2) 4) [].

Definition ps_a : list PhotoInfo := out_or (group_faces res_a) [].

(** One face, opposite in direction to [q_a]'s nearest neighbour: its
    similarity to [q_a] is [-3/5]. *)
Definition ix_neg : Index := {| ix_d := 2; ix_vectors := [[-3#5; 4#5]] |}.

Definition mgr_neg : Manager :=
  {| embedding_dim := 2; index := Some ix_neg; metadata := [face_md 0 "p.jpg"] |}.

Definition fpe_neg : PyResult :=
  out_or (fst (find_photos_by_embedding mgr_neg q_a (-1) 10 None [])) empty_result.

(** A model that finds the face [q_a] in every selfie and encodes every
    text as [q_a]. *)
Definition pv_a : Provider :=
  {| extract_single_face_embedding := fun _ => Some q_a; encode_text := fun _ => q_a |}.

(** An index of four vectors saved with a metadata file of one record. *)
Definition fs_mis : FS :=
  {| fs_files := [("data/embeddings/faiss.index", FIndex ix_a);
                  ("data/embeddings/metadata.json", FMetaJson [face_md 0 "a.jpg"])];
     fs_dirs := ["data"; "data/embeddings"] |}.

Definition mgr_mis : Manager :=
  out_or (retriever_init fs_mis "data/embeddings/faiss.index"
            "data/embeddings/metadata.json") (new_manager 512).

Definition res_mis : list MatchResult :=
  out_or (search_with_threshold mgr_mis q_a 0 4) [].

(** Two selfies on disk and an empty profile store. *)
Definition fs_selfies : FS :=
  {| fs_files := [("ann1.jpg", FOther); ("ann2.jpg", FOther)];
     fs_dirs := ["data"; "data/embeddings"] |}.

Definition pm0 : PersonManager :=
  {| profiles_path := "data/embeddings/person_profiles.json"; profiles := [] |}.

(** [register_person("Ann", "ann1.jpg")] then
    [register_person("ann", "ann2.jpg")]. *)
Definition reg_Ann := register_person pv_a "Ann" "ann1.jpg" (pm0, fs_selfies).
Definition reg_ann := register_person pv_a "ann" "ann2.jpg" (snd reg_Ann).

End Samples.
Import Samples.

(** The matches of a result list whose metadata names image [p]. *)
Definition members (p : string) (ms : list MatchResult) : list MatchResult :=
  filter (fun r => match mr_metadata r with
                   | Some md => String.eqb (image_path md) p
                   | None => false
                   end) ms.

(** [mx] is the larger of [0] and the largest of [sims]. *)
Definition max_from_zero (mx : Q) (sims : list Q) : Prop :=
  (mx = 0 \/ In mx sims) /\ 0 <= mx /\ (forall s, In s sims -> s <= mx).

(** Invariant of the grouping loop after the matches [done_] are
    processed: every group holds exactly the similarities of the matches of
    its image, in order, and a running maximum started at [0]. *)
Definition group_inv (done_ : list MatchResult) (groups : list (string * Group)) : Prop :=
  (forall k g, In (k, g) groups ->
     g_image_path g = k /\
     map fi_similarity (g_faces g) = map similarity (members k done_) /\
     max_from_zero (g_max g) (map similarity (members k done_)) /\
     members k done_ <> []) /\
  (forall r md, In r done_ -> mr_metadata r = Some md ->
     In (image_path md) (map fst groups)).

(** The parts of a retriever result the two search entry points share. *)
Definition result_view (o : outcome PyResult) : outcome (bool * list PhotoInfo * nat) :=
  match o with
  | Ok r => Ok (success r, matches r, total_photos r)
  | Raise e => Raise e
  end.

(** The sum of the face counts of the groups. *)
Definition group_sizes (groups : list (string * Group)) : nat :=
  list_sum (map (fun kv => length (g_faces (snd kv))) groups).

(** Invariant of the offline loop's accumulator: one record per vector,
    numbered from [0] in order, all tagged with the same mode. *)
Definition acc_ok (tag : string) (acc : Acc) : Prop :=
  let '(es, ms, i) := acc in
  length es = length ms /\ i = Z.of_nat (length ms) /\
  (forall j md, nth_error ms j = Some md ->
     item_id md = Z.of_nat j /\ mode md = Some tag).

(** The vectors and the image paths the offline loop records for one
    image. *)
Definition image_vectors (ex : Extractor) (mode_ p : string) : list Emb :=
  if String.eqb mode_ "full_image" then
    match get_full_image_embedding ex p with Ok e => [e] | Raise _ => [] end
  else
    match detect_faces ex p with Ok faces => map det_embedding faces | Raise _ => [] end.

Definition image_records (ex : Extractor) (mode_ p : string) : list string :=
  if String.eqb mode_ "full_image" then
    match get_full_image_embedding ex p with Ok _ => [p] | Raise _ => [] end
  else
    match detect_faces ex p with Ok faces => repeat p (length faces) | Raise _ => [] end.

(* ------------------------------------------------------------------ *)
(** ** More concrete inputs *)

Module Samples2.

Local Open Scope string_scope.

(** [str.lower] on ASCII text. *)
Definition ascii_lower_char (c : ascii) : ascii :=
  let n := nat_of_ascii c in
  if (Nat.leb 65 n) && (Nat.leb n 90) then ascii_of_nat (n + 32)%nat else c.

Fixpoint ascii_lower (s : string) : string :=
  match s with
  | EmptyString => EmptyString
  | String c s' => String (ascii_lower_char c) (ascii_lower s')
  end.

Definition prof (e : Emb) (p : string) : Profile :=
  {| pr_embedding := e; pr_selfie_path := p |}.

(** Two registered people. *)
Definition pm_ab : PersonManager :=
  {| profiles_path := "data/embeddings/person_profiles.json";
     profiles := [("Ann", prof [1; 0] "ann1.jpg"); ("Bob", prof [0; 1] "bob.jpg")] |}.

(** A profile store kept in a file of the working directory. *)
Definition pm_bare : PersonManager :=
  {| profiles_path := "person_profiles.json"; profiles := [] |}.

(** Unit vectors of width 512. *)
Definition e512 (i : nat) : Emb := map (fun j => if Nat.eqb j i then 1 else 0) (seq 0 512).

(** A model that fails on one image, embeds every other image whole, and
    finds two faces in it. *)
Definition ex_ok : Extractor :=
  {| get_full_image_embedding := fun p =>
       if String.eqb p "ev/bad.jpg" then Raise ValueError else Ok (e512 (String.length p));
     detect_faces := fun p =>
       if String.eqb p "ev/bad.jpg" then Raise ValueError
       else Ok [{| det_bbox := [0; 0; 10; 10]%Z; det_embedding := e512 0; det_conf := 9#10 |};
                {| det_bbox := [20; 0; 30; 10]%Z; det_embedding := e512 1; det_conf := 8#10 |}] |}.

(** A model whose vectors have width 2. *)
Definition ex_narrow : Extractor :=
  {| get_full_image_embedding := fun _ => Ok [1; 0];
     detect_faces := fun _ => Ok [{| det_bbox := [0; 0; 10; 10]%Z; det_embedding := [1; 0];
                                     det_conf := 1 |}] |}.

(** A model that fails on every image. *)
Definition ex_fail : Extractor :=
  {| get_full_image_embedding := fun _ => Raise ValueError;
     detect_faces := fun _ => Raise ValueError |}.

Definition ev_entries : list string := ["ev/a.jpg"; "ev/bad.jpg"; "ev/b.png"; "ev/notes.txt"].

Definition fs_empty : FS := {| fs_files := []; fs_dirs := [] |}.




End Samples2.
Import Samples2.

(* ================================================================== *)
(** * Lemmas *)

(** ** Stable insertion sort *)

Section Sorting.
Context {A : Type} (before : A -> A -> bool).

Lemma sort_by_cons (x : A) (l : list A) :
  sort_by before (x :: l) = insert_by before x (sort_by before l).
Proof. reflexivity. Qed.

Lemma insert_by_perm (x : A) (l : list A) :
  Permutation (insert_by before x l) (x :: l).
Proof.
  induction l as [|y ys IH]; simpl; [auto|].
  destruct (before x y); [auto|].
  eapply perm_trans; [apply perm_skip, IH | apply perm_swap].
Qed.

Lemma sort_by_perm (l : list A) : Permutation (sort_by before l) l.
Proof.
  induction l as [|x l IH]; [reflexivity|].
  rewrite sort_by_cons, insert_by_perm. auto.
Qed.

Lemma sort_by_length (l : list A) : length (sort_by before l) = length l.
Proof. apply Permutation_length, sort_by_perm. Qed.

Hypothesis before_total : forall a b, before a b = false -> before b a = true.

Lemma insert_by_sorted (x : A) (l : list A) :
  Sorted (fun a b => before a b = true) l ->
  Sorted (fun a b => before a b = true) (insert_by before x l).
Proof.
  intros H; induction H as [|y ys Hs IH Hhd]; simpl.
  - repeat constructor.
  - destruct (before x y) eqn:E.
    + constructor; [constructor; assumption | constructor; exact E].
    + apply before_total in E.
      constructor; [exact IH|].
      destruct ys as [|z zs]; simpl; [constructor; exact E|].
      destruct (before x z); constructor; [exact E|].
      inversion Hhd; assumption.
Qed.

Lemma sort_by_sorted (l : list A) :
  Sorted (fun a b => before a b = true) (sort_by before l).
Proof.
  induction l as [|x l IH]; [constructor|].
  rewrite sort_by_cons. apply insert_by_sorted, IH.
Qed.

End Sorting.

(** A list already in descending key order is left as it is by
    [sort(key=..., reverse=True)]. *)
Lemma sort_desc_by_sorted_id {A} (key : A -> Q) (l : list A) :
  Sorted (fun a b => key b <= key a) l -> sort_desc_by key l = l.
Proof.
  unfold sort_desc_by.
  induction 1 as [|x l Hs IH Hhd]; [reflexivity|].
  rewrite sort_by_cons, IH.
  destruct l as [|y l]; [reflexivity|].
  inversion Hhd as [|? ? Hle]; subst. simpl.
  rewrite (proj2 (Qle_bool_iff _ _) Hle). reflexivity.
Qed.



(** ** StronglySorted through list operations *)

Lemma SSorted_impl_in {A} (R R' : A -> A -> Prop) (l : list A) :
  (forall a b, In a l -> In b l -> R a b -> R' a b) ->
  StronglySorted R l -> StronglySorted R' l.
Proof.
  intros Himp H; induction H as [|a l Hs IH Hf]; constructor.
  - apply IH. intros x y Hx Hy. apply Himp; simpl; auto.
  - rewrite Forall_forall in *. intros y Hy.
    apply Himp; simpl; auto.
Qed.



Lemma in_firstn_l {A} (k : nat) (l : list A) (x : A) : In x (firstn k l) -> In x l.
Proof.
  intros H. rewrite <- (firstn_skipn k l). apply in_or_app. left. exact H.
Qed.


Lemma map_snd_combine {A B} (l1 : list A) (l2 : list B) :
  length l1 = length l2 -> map snd (combine l1 l2) = l2.
Proof.
  revert l2; induction l1 as [|a l1 IH]; intros [|b l2] H; simpl in *;
    try discriminate; [reflexivity|].
  f_equal. apply IH. congruence.
Qed.

Lemma filter_length_mono {A} (f g : A -> bool) (l : list A) :
  (forall x, g x = true -> f x = true) ->
  (length (filter g l) <= length (filter f l))%nat.
Proof.
  intros Hgf; induction l as [|a l IH]; simpl; [lia|].
  destruct (g a) eqn:Eg.
  - rewrite (Hgf a Eg). simpl. lia.
  - destruct (f a); simpl; lia.
Qed.

(** ** Boolean comparisons of [Q] *)

Lemma Qlt_bool_iff (a b : Q) : Qlt_bool a b = true <-> a < b.
Proof.
  unfold Qlt_bool. rewrite negb_true_iff. split; intros H.
  - apply Qnot_le_lt. intros C. apply Qle_bool_iff in C. congruence.
  - destruct (Qle_bool b a) eqn:E; [|reflexivity].
    apply Qle_bool_iff in E. exfalso. apply (Qlt_not_le _ _ H E).
Qed.




(** ** The FAISS result rows *)

Lemma scored_ids (ix : Index) (q : Emb) :
  map snd (scored ix q) = map Z.of_nat (seq 0 (ntotal ix)).
Proof.
  unfold scored. apply map_snd_combine.
  rewrite !length_map, length_seq. reflexivity.
Qed.

Lemma NoDup_ids (s n : nat) : NoDup (map Z.of_nat (seq s n)).
Proof.
  revert s; induction n as [|n IH]; intros s; simpl; constructor; [|apply IH].
  intros H. apply in_map_iff in H as [x [Hx Hin]]. apply in_seq in Hin. lia.
Qed.



Lemma filter_padding (thr : Q) (n : nat) :
  filter (keep_row thr) (repeat (flt_max, (-1)%Z) n) = [].
Proof. induction n as [|n IH]; [reflexivity|]. simpl. exact IH. Qed.

Lemma knn_rows_kept (ix : Index) (q : Emb) (k : nat) (thr : Q) :
  filter (keep_row thr) (knn_rows ix q k)
  = filter (keep_row thr) (firstn k (sort_by before_dist_id (scored ix q))).
Proof.
  unfold knn_rows. rewrite filter_app, filter_padding, app_nil_r. reflexivity.
Qed.

(** ** [search_with_threshold] *)

Lemma cosine_of_lt (d1 d2 : Q) : d1 < d2 -> cosine_of d2 < cosine_of d1.
Proof.
  unfold cosine_of, Qdiv. change (/ 2) with (1 # 2). intros H. lra.
Qed.

Lemma cosine_of_eq (d1 d2 : Q) : d1 == d2 -> cosine_of d1 == cosine_of d2.
Proof.
  unfold cosine_of, Qdiv. change (/ 2) with (1 # 2). intros H. lra.
Qed.

Lemma collect_spec (md : list Meta) (thr : Q) (rows : list (Q * Z))
    (res : list MatchResult) :
  collect md thr rows = Ok res ->
  map (fun r => (distance r, face_id r)) res = filter (keep_row thr) rows /\
  Forall (fun r => similarity r = cosine_of (distance r) /\
                   ((Z.of_nat (length md) <= face_id r)%Z -> mr_metadata r = None)) res.
Proof.
  revert res; induction rows as [|[d i] rows IH]; intros res H; simpl in H.
  - injection H as <-. split; [reflexivity | constructor].
  - simpl filter. unfold keep_row at 1. simpl fst. simpl snd.
    destruct (Z.eqb i (-1)) eqn:Ei; simpl.
    + apply IH, H.
    + destruct (Qle_bool thr (cosine_of d)) eqn:Eq; [|apply IH, H].
      destruct (Z.ltb i (Z.of_nat (length md))) eqn:Elt; simpl in H.
      * destruct (py_index md i) as [x|e]; simpl in H; [|discriminate].
        destruct (collect md thr rows) as [rest|e] eqn:Ec; simpl in H; [|discriminate].
        injection H as <-. destruct (IH rest eq_refl) as [H1 H2].
        split; [simpl; f_equal; exact H1|].
        constructor; [|exact H2]. simpl. split; [reflexivity|].
        intros Hge. apply Z.ltb_lt in Elt. lia.
      * destruct (collect md thr rows) as [rest|e] eqn:Ec; simpl in H; [|discriminate].
        injection H as <-. destruct (IH rest eq_refl) as [H1 H2].
        split; [simpl; f_equal; exact H1|].
        constructor; [|exact H2]. simpl. split; reflexivity.
Qed.

Lemma swt_rows (m : Manager) (ix : Index) (q : Emb) (thr : Q) (k : nat)
    (res : list MatchResult) :
  index m = Some ix ->
  search_with_threshold m q thr k = Ok res ->
  exists res0, collect (metadata m) thr (knn_rows ix q k) = Ok res0 /\
               res = sort_desc_by similarity res0.
Proof.
  intros Hix H. unfold search_with_threshold, FaissUtils.search in H.
  rewrite Hix in H. unfold Faiss.search in H.
  destruct (negb (Nat.eqb (length q) (ix_d ix))); [discriminate|].
  destruct (Nat.eqb k 0); [discriminate|]. simpl in H.
  destruct (List.split (knn_rows ix q k)) as [l1 l2] eqn:Hs. simpl in H.
  rewrite (split_combine _ Hs) in H.
  destruct (collect (metadata m) thr (knn_rows ix q k)) as [res0|e]; simpl in H;
    [|discriminate].
  injection H as <-. exists res0. split; reflexivity.
Qed.

Lemma swt_no_index (m : Manager) (q : Emb) (thr : Q) (k : nat) :
  index m = None -> search_with_threshold m q thr k = Raise ValueError.
Proof.
  intros Hix. unfold search_with_threshold, FaissUtils.search. rewrite Hix. reflexivity.
Qed.

(** ** [search_with_threshold_by] *)

Lemma collect_by_exact (md : list Meta) (thr : Q) (rows : list (Q * Z)) :
  collect_by cosine_of md thr rows = collect md thr rows.
Proof.
  induction rows as [|[d i] rows IH]; simpl; [reflexivity|]. rewrite IH. reflexivity.
Qed.

(** With exact arithmetic, [search_with_threshold_by] is
    [search_with_threshold]. *)
Lemma search_with_threshold_by_exact (m : Manager) (q : Emb) (thr : Q) (k : nat) :
  search_with_threshold_by cosine_of m q thr k = search_with_threshold m q thr k.
Proof.
  unfold search_with_threshold_by, search_with_threshold.
  destruct (FaissUtils.search m q k) as [dl|e]; simpl; [|reflexivity].
  rewrite collect_by_exact. reflexivity.
Qed.





(** The metadata a hit of non-negative label carries is the record at that
    position. *)
Lemma collect_meta (md : list Meta) (thr : Q) (rows : list (Q * Z)) (res : list MatchResult) :
  collect md thr rows = Ok res ->
  Forall (fun r => forall mdr, mr_metadata r = Some mdr -> (0 <= face_id r)%Z ->
                   nth_error md (Z.to_nat (face_id r)) = Some mdr) res.
Proof.
  revert res; induction rows as [|[d i] rows IH]; intros res H; simpl in H.
  - injection H as <-. constructor.
  - destruct (Z.eqb i (-1)); [apply IH, H|].
    destruct (Qle_bool thr (cosine_of d)); [|apply IH, H].
    destruct (Z.ltb i (Z.of_nat (length md))); simpl in H.
    + destruct (py_index md i) as [x|e] eqn:Ep; simpl in H; [|discriminate].
      destruct (collect md thr rows) as [rest|e] eqn:Ec; simpl in H; [|discriminate].
      injection H as <-.
      constructor; [|apply IH; reflexivity].
      simpl. intros mdr Hm Hi. injection Hm as <-.
      unfold py_index in Ep. apply Z.leb_le in Hi. rewrite Hi, Hi in Ep.
      destruct (nth_error md (Z.to_nat i)); congruence.
    + destruct (collect md thr rows) as [rest|e] eqn:Ec; simpl in H; [|discriminate].
      injection H as <-.
      constructor; [|apply IH; reflexivity]. simpl. discriminate.
Qed.

(** ** Face-mode grouping *)

Lemma dict_mem_keys {V} (k : string) (d : list (string * V)) :
  dict_mem k d = true <-> In k (map fst d).
Proof.
  unfold dict_mem. induction d as [|[k' v] d IH]; simpl; [split; [discriminate|tauto]|].
  destruct (String.eqb k' k) eqn:E.
  - apply String.eqb_eq in E. split; [left; exact E | reflexivity].
  - apply String.eqb_neq in E. rewrite IH. split; [right; assumption|].
    intros [H|H]; [congruence | assumption].
Qed.

Lemma dict_update_keys {V} (k : string) (f : V -> V) (d : list (string * V)) :
  map fst (dict_update k f d) = map fst d.
Proof.
  unfold dict_update. rewrite map_map. apply map_ext. intros [k' v]. simpl.
  destruct (String.eqb k' k); reflexivity.
Qed.

Lemma in_dict_update {V} (k : string) (f : V -> V) (d : list (string * V)) k' v' :
  In (k', v') (dict_update k f d) ->
  exists v, In (k', v) d /\ ((k' = k /\ v' = f v) \/ (k' <> k /\ v' = v)).
Proof.
  unfold dict_update. intros H. apply in_map_iff in H as [[k0 v0] [Heq Hin]].
  simpl in Heq. destruct (String.eqb k0 k) eqn:E.
  - apply String.eqb_eq in E. injection Heq as <- <-. exists v0. split; [exact Hin|].
    left. split; [exact E | reflexivity].
  - apply String.eqb_neq in E. injection Heq as <- <-. exists v0. split; [exact Hin|].
    right. split; [exact E | reflexivity].
Qed.

Lemma members_app_one (p : string) (ms : list MatchResult) (r : MatchResult) (md : Meta) :
  mr_metadata r = Some md ->
  members p (ms ++ [r]) =
  members p ms ++ (if String.eqb (image_path md) p then [r] else []).
Proof.
  intros Hr. unfold members. rewrite filter_app. simpl. rewrite Hr.
  destruct (String.eqb (image_path md) p); reflexivity.
Qed.

Lemma max_from_zero_nil : max_from_zero 0 [].
Proof. split; [left; reflexivity | split; [apply Qle_refl | intros s []]]. Qed.

Lemma max_from_zero_step (mx s : Q) (sims : list Q) :
  max_from_zero mx sims ->
  max_from_zero (if Qlt_bool mx s then s else mx) (sims ++ [s]).
Proof.
  intros [Hin [H0 Hall]]. destruct (Qlt_bool mx s) eqn:E.
  - apply Qlt_bool_iff in E. split; [right; apply in_or_app; right; left; reflexivity|].
    split; [apply Qlt_le_weak; eapply Qle_lt_trans; eassumption|].
    intros s' Hs'. apply in_app_or in Hs' as [Hs'|[<-|[]]]; [|apply Qle_refl].
    apply Qlt_le_weak. eapply Qle_lt_trans; [apply Hall, Hs' | exact E].
  - assert (Hle : s <= mx).
    { apply Qnot_lt_le. intros C. apply Qlt_bool_iff in C. congruence. }
    split; [destruct Hin as [Hin|Hin]; [left; exact Hin | right; apply in_or_app; left; exact Hin]|].
    split; [exact H0|].
    intros s' Hs'. apply in_app_or in Hs' as [Hs'|[<-|[]]]; [apply Hall, Hs' | exact Hle].
Qed.

Lemma group_inv_nil : group_inv [] [].
Proof. split; [intros k g []| intros r md []]. Qed.

Lemma group_inv_step (done_ : list MatchResult) (groups : list (string * Group))
    (r : MatchResult) (md : Meta) :
  mr_metadata r = Some md ->
  group_inv done_ groups ->
  group_inv (done_ ++ [r]) (add_match groups md r).
Proof.
  intros Hr [I1 I2]. unfold add_match.
  set (p := image_path md).
  set (groups1 := if dict_mem p groups then groups else groups ++ [(p, new_group p)]).
  assert (Hkeys1 : forall k, In k (map fst groups) -> In k (map fst groups1)).
  { intros k Hk. unfold groups1. destruct (dict_mem p groups); [exact Hk|].
    rewrite map_app. apply in_or_app. left. exact Hk. }
  assert (Hp1 : In p (map fst groups1)).
  { unfold groups1. destruct (dict_mem p groups) eqn:E.
    - apply dict_mem_keys, E.
    - rewrite map_app. apply in_or_app. right. left. reflexivity. }
  (* Entries of [groups1] before the update. *)
  assert (G1 : forall k g, In (k, g) groups1 ->
            g_image_path g = k /\
            map fi_similarity (g_faces g) = map similarity (members k done_) /\
            max_from_zero (g_max g) (map similarity (members k done_)) /\
            (k <> p -> members k done_ <> [])).
  { intros k g Hin. unfold groups1 in Hin. destruct (dict_mem p groups) eqn:E.
    - destruct (I1 k g Hin) as [A1 [A2 [A3 A4]]]. auto.
    - apply in_app_or in Hin as [Hin|[Heq|[]]].
      + destruct (I1 k g Hin) as [A1 [A2 [A3 A4]]]. auto.
      + injection Heq as <- <-.
        assert (Hnone : members p done_ = []).
        { destruct (members p done_) as [|r0 rs] eqn:Em; [reflexivity|].
          exfalso. assert (Hr0 : In r0 (members p done_)) by (rewrite Em; left; reflexivity).
          unfold members in Hr0. apply filter_In in Hr0 as [Hr0 Hm].
          destruct (mr_metadata r0) as [md0|] eqn:Emd; [|discriminate].
          apply String.eqb_eq in Hm. specialize (I2 r0 md0 Hr0 Emd).
          rewrite Hm in I2. apply dict_mem_keys in I2. congruence. }
        rewrite Hnone. simpl. split; [reflexivity|]. split; [reflexivity|].
        split; [apply max_from_zero_nil|]. intros C. exfalso. apply C. reflexivity. }
  split.
  - intros k g' Hin. apply in_dict_update in Hin as [g [Hin Hcase]].
    destruct (G1 k g Hin) as [A1 [A2 [A3 A4]]].
    rewrite (members_app_one k done_ r md Hr).
    destruct Hcase as [[Hk ->]|[Hk ->]].
    + subst k.
      assert (Ep : String.eqb (image_path md) p = true) by apply String.eqb_refl.
      rewrite Ep. simpl.
      split; [exact A1|]. split.
      * rewrite map_app, A2, map_app. reflexivity.
      * split.
        -- rewrite map_app. simpl. apply max_from_zero_step, A3.
        -- intros C. apply app_eq_nil in C as [_ C]. discriminate.
    + assert (E : String.eqb (image_path md) k = false).
      { apply String.eqb_neq. intros C. apply Hk. symmetry. exact C. }
      rewrite E, app_nil_r. auto.
  - intros r' md' Hin Hmd. rewrite dict_update_keys.
    apply in_app_or in Hin as [Hin|[<-|[]]].
    + apply Hkeys1, (I2 r' md' Hin Hmd).
    + rewrite Hr in Hmd. injection Hmd as <-. exact Hp1.
Qed.

Lemma group_loop_inv (ms done_ : list MatchResult) (groups res : list (string * Group)) :
  group_inv done_ groups ->
  group_loop groups ms = Ok res ->
  group_inv (done_ ++ ms) res.
Proof.
  revert done_ groups; induction ms as [|r ms IH]; intros done_ groups Hinv H; simpl in H.
  - injection H as <-. rewrite app_nil_r. exact Hinv.
  - destruct (mr_metadata r) as [md|] eqn:Hr; [|discriminate].
    replace (done_ ++ r :: ms) with ((done_ ++ [r]) ++ ms)
      by (rewrite <- app_assoc; reflexivity).
    apply (IH _ _ (group_inv_step done_ groups r md Hr Hinv) H).
Qed.

(** ** Dict updates and the profile store *)

Lemma dict_get_update {V} (k k' : string) (f : V -> V) (d : list (string * V)) :
  dict_get k' (dict_update k f d) =
  if String.eqb k k' then option_map f (dict_get k' d) else dict_get k' d.
Proof.
  induction d as [|[k0 v0] d IH]; simpl; [destruct (String.eqb k k'); reflexivity|].
  destruct (String.eqb_spec k0 k) as [->|Hne]; simpl.
  - destruct (String.eqb k k'); [reflexivity | exact IH].
  - destruct (String.eqb_spec k0 k') as [->|Hne'].
    + destruct (String.eqb_spec k k') as [->|_]; [contradiction | reflexivity].
    + exact IH.
Qed.

Lemma dict_get_app_one {V} (k k2 : string) (v : V) (d : list (string * V)) :
  dict_get k (d ++ [(k2, v)]) =
  match dict_get k d with
  | Some x => Some x
  | None => if String.eqb k2 k then Some v else None
  end.
Proof.
  induction d as [|[k0 v0] d IH]; simpl; [reflexivity|].
  destruct (String.eqb k0 k); [reflexivity | exact IH].
Qed.

Lemma dict_set_get {V} (k : string) (v : V) (d : list (string * V)) :
  dict_get k (dict_set k v d) = Some v.
Proof.
  unfold dict_set, dict_mem. destruct (dict_get k d) eqn:E.
  - rewrite dict_get_update, String.eqb_refl, E. reflexivity.
  - rewrite dict_get_app_one, E, String.eqb_refl. reflexivity.
Qed.

Lemma dict_set_get_other {V} (k k' : string) (v : V) (d : list (string * V)) :
  k' <> k -> dict_get k' (dict_set k v d) = dict_get k' d.
Proof.
  intros Hne. assert (E : String.eqb k k' = false)
    by (apply String.eqb_neq; intros C; apply Hne; symmetry; exact C).
  unfold dict_set. destruct (dict_mem k d).
  - rewrite dict_get_update, E. reflexivity.
  - rewrite dict_get_app_one, E. destruct (dict_get k' d); reflexivity.
Qed.

Lemma dict_set_keys {V} (k : string) (v : V) (d : list (string * V)) :
  dict_keys (dict_set k v d) =
  if dict_mem k d then dict_keys d else dict_keys d ++ [k].
Proof.
  unfold dict_set, dict_keys. destruct (dict_mem k d).
  - apply dict_update_keys.
  - rewrite map_app. reflexivity.
Qed.

Lemma save_profiles_pm (st : PersonManager * FS) :
  fst (snd (save_profiles st)) = fst st.
Proof.
  destruct st as [pm fs]. unfold save_profiles, bind, get, lift, put. simpl.
  destruct (makedirs (dirname (profiles_path pm)) fs); reflexivity.
Qed.

(** After a registration that reaches the store, the profiles are the old
    ones with the stripped name set by dict assignment. *)
Lemma register_person_profiles (pv : Provider) (name selfie_path : string)
    (pm : PersonManager) (fs : FS) (e : Emb) :
  strip name <> ""%string ->
  path_exists fs selfie_path = true ->
  extract_single_face_embedding pv selfie_path = Some e ->
  profiles (fst (snd (register_person pv name selfie_path (pm, fs))))
  = dict_set (strip name) {| pr_embedding := e; pr_selfie_path := selfie_path |}
      (profiles pm).
Proof.
  intros Hn Hx He. unfold register_person.
  apply String.eqb_neq in Hn. rewrite Hn.
  unfold bind, get, put. simpl. rewrite Hx, He. simpl.
  match goal with
  | |- context [save_profiles ?st] =>
      pose proof (save_profiles_pm st) as Hp; destruct (save_profiles st) as [[u|ex] st2]
  end; simpl in *; rewrite Hp; reflexivity.
Qed.

(** ** More on the index search *)

Lemma scored_length (ix : Index) (q : Emb) : length (scored ix q) = ntotal ix.
Proof.
  unfold scored. rewrite length_combine, !length_map, length_seq. apply Nat.min_id.
Qed.

Lemma in_scored_id (ix : Index) (q : Emb) (r : Q * Z) :
  In r (scored ix q) -> (0 <= snd r < Z.of_nat (ntotal ix))%Z.
Proof.
  intros H. apply (in_map snd) in H. rewrite scored_ids in H.
  apply in_map_iff in H as [n [<- Hn]]. apply in_seq in Hn. lia.
Qed.

Lemma in_best_scored (ix : Index) (q : Emb) (k : nat) (r : Q * Z) :
  In r (firstn k (sort_by before_dist_id (scored ix q))) -> In r (scored ix q).
Proof.
  intros H. apply in_firstn_l in H.
  eapply Permutation_in; [apply sort_by_perm | exact H].
Qed.

Lemma NoDup_best_ids (ix : Index) (q : Emb) (k : nat) :
  NoDup (map snd (firstn k (sort_by before_dist_id (scored ix q)))).
Proof.
  rewrite <- firstn_map.
  apply (NoDup_app_remove_r _ (skipn k (map snd (sort_by before_dist_id (scored ix q))))).
  rewrite firstn_skipn.
  eapply Permutation_NoDup.
  - apply Permutation_map. symmetry. apply sort_by_perm.
  - rewrite scored_ids. apply NoDup_ids.
Qed.

Lemma NoDup_map_filter {A B} (g : A -> B) (f : A -> bool) (l : list A) :
  NoDup (map g l) -> NoDup (map g (filter f l)).
Proof.
  induction l as [|a l IH]; simpl; intros H; [constructor|].
  inversion H as [|? ? Hni Hnd]; subst.
  destruct (f a); simpl; [|apply IH, Hnd].
  constructor; [|apply IH, Hnd].
  intros C. apply Hni. apply in_map_iff in C as [x [Hx Hin]].
  apply filter_In in Hin as [Hin _]. rewrite <- Hx. apply in_map, Hin.
Qed.

Lemma knn_rows_ids (ix : Index) (q : Emb) (k : nat) :
  Forall (fun r => (-1 <= snd r)%Z) (knn_rows ix q k).
Proof.
  unfold knn_rows. apply Forall_app. split.
  - apply Forall_forall. intros r Hr.
    apply in_best_scored, in_scored_id in Hr. lia.
  - apply Forall_forall. intros r Hr. apply repeat_spec in Hr. subst r. simpl. lia.
Qed.

(** The loop of [search_with_threshold] does not raise on the rows the
    index returns. *)
Lemma collect_ok (md : list Meta) (thr : Q) (rows : list (Q * Z)) :
  Forall (fun r => (-1 <= snd r)%Z) rows ->
  exists res, collect md thr rows = Ok res.
Proof.
  induction rows as [|[d i] rows IH]; intros H; simpl; [exists []; reflexivity|].
  inversion H as [|? ? Hi Hrest]; subst. simpl in Hi.
  destruct (IH Hrest) as [res Hres].
  destruct (Z.eqb i (-1)) eqn:Ei; [exists res; exact Hres|].
  destruct (Qle_bool thr (cosine_of d)); [|exists res; exact Hres].
  apply Z.eqb_neq in Ei.
  destruct (Z.ltb i (Z.of_nat (length md))) eqn:Elt; simpl.
  - apply Z.ltb_lt in Elt. unfold py_index.
    assert (Hi0 : (0 <=? i)%Z = true) by (apply Z.leb_le; lia).
    rewrite Hi0, Hi0.
    destruct (nth_error md (Z.to_nat i)) as [x|] eqn:En.
    + simpl. rewrite Hres. eexists; reflexivity.
    + apply nth_error_None in En. lia.
  - rewrite Hres. eexists; reflexivity.
Qed.

Lemma swt_facts (m : Manager) (ix : Index) (q : Emb) (thr : Q) (k : nat) :
  index m = Some ix -> length q = ix_d ix -> k <> 0%nat ->
  exists res0, search_with_threshold m q thr k = Ok (sort_desc_by similarity res0) /\
    map (fun r => (distance r, face_id r)) res0
    = filter (keep_row thr) (firstn k (sort_by before_dist_id (scored ix q))) /\
    Forall (fun r => similarity r = cosine_of (distance r) /\
                     ((Z.of_nat (length (metadata m)) <= face_id r)%Z ->
                      mr_metadata r = None)) res0.
Proof.
  intros Hix Hq Hk.
  destruct (collect_ok (metadata m) thr (knn_rows ix q k) (knn_rows_ids ix q k)) as [res0 Hc].
  exists res0. split.
  - unfold search_with_threshold, FaissUtils.search. rewrite Hix. unfold Faiss.search.
    rewrite Hq, Nat.eqb_refl. simpl.
    destruct k as [|k']; [congruence|]. simpl.
    destruct (List.split (knn_rows ix q (S k'))) as [l1 l2] eqn:Hs. simpl.
    rewrite (split_combine _ Hs), Hc. reflexivity.
  - destruct (collect_spec _ _ _ _ Hc) as [H1 H2].
    rewrite knn_rows_kept in H1. split; assumption.
Qed.

Lemma swt_res_facts (m : Manager) (ix : Index) (q : Emb) (thr : Q) (k : nat)
    (res : list MatchResult) :
  index m = Some ix -> search_with_threshold m q thr k = Ok res ->
  NoDup (map face_id res) /\ (length res <= k)%nat /\ (length res <= ntotal ix)%nat /\
  Forall (fun r => (0 <= face_id r < Z.of_nat (ntotal ix))%Z /\
                   similarity r = cosine_of (distance r) /\
                   ((Z.of_nat (length (metadata m)) <= face_id r)%Z ->
                    mr_metadata r = None)) res.
Proof.
  intros Hix Hs. destruct (swt_rows m ix q thr k res Hix Hs) as [res0 [Hc ->]].
  destruct (collect_spec _ _ _ _ Hc) as [H1 H2]. rewrite knn_rows_kept in H1.
  set (best := firstn k (sort_by before_dist_id (scored ix q))) in *.
  assert (Hp : Permutation (sort_desc_by similarity res0) res0) by apply sort_by_perm.
  assert (Hids : map face_id res0 = map snd (filter (keep_row thr) best)).
  { rewrite <- H1, map_map. reflexivity. }
  assert (Hlen : length res0 = length (filter (keep_row thr) best)).
  { rewrite <- H1, length_map. reflexivity. }
  assert (Hbest : (length best <= k)%nat /\ (length best <= ntotal ix)%nat).
  { unfold best. rewrite length_firstn, sort_by_length, scored_length. lia. }
  pose proof (@filter_length_le (Q * Z) (keep_row thr) best) as Hfl.
  repeat split.
  - eapply Permutation_NoDup; [apply Permutation_map; symmetry; exact Hp|].
    rewrite Hids. apply NoDup_map_filter, NoDup_best_ids.
  - rewrite (Permutation_length Hp), Hlen. lia.
  - rewrite (Permutation_length Hp), Hlen. lia.
  - apply Forall_forall. intros r Hr.
    apply (Permutation_in _ Hp) in Hr.
    rewrite Forall_forall in H2. destruct (H2 r Hr) as [Hsim Hmd].
    assert (Hin : In (distance r, face_id r) best).
    { assert (Hin' : In (distance r, face_id r) (filter (keep_row thr) best)).
      { rewrite <- H1. apply (in_map (fun r => (distance r, face_id r))), Hr. }
      apply filter_In in Hin'. apply Hin'. }
    apply in_best_scored, in_scored_id in Hin. simpl in Hin.
    split; [exact Hin|]. split; assumption.
Qed.

Lemma sqdist_self (v : Emb) : sqdist v v == 0.
Proof.
  induction v as [|x v IH]; simpl; [reflexivity|].
  rewrite IH. setoid_replace (x - x) with 0 by ring. reflexivity.
Qed.

Lemma nth_error_combine_some {A B} (l1 : list A) (l2 : list B) (i : nat) (a : A) (b : B) :
  nth_error l1 i = Some a -> nth_error l2 i = Some b ->
  nth_error (combine l1 l2) i = Some (a, b).
Proof.
  revert i l2; induction l1 as [|x l1 IH]; intros i [|y l2] H1 H2;
    destruct i; simpl in *; try discriminate.
  - congruence.
  - apply IH; assumption.
Qed.

Lemma in_scored_nth (ix : Index) (q w : Emb) (i : nat) :
  nth_error (ix_vectors ix) i = Some w -> In (sqdist q w, Z.of_nat i) (scored ix q).
Proof.
  intros H. apply (nth_error_In _ i). unfold scored.
  apply nth_error_combine_some.
  - rewrite nth_error_map, H. reflexivity.
  - rewrite nth_error_map, nth_error_seq.
    assert (Hi : (i < ntotal ix)%nat) by (apply nth_error_Some; congruence).
    apply Nat.ltb_lt in Hi. rewrite Hi. reflexivity.
Qed.

(* ================================================================== *)
(** * Claims *)

(** ** C5 *)




(** ** C6 *)

(** C6: for one query and one candidate pool, raising the threshold never
    increases the number of results of [search_with_threshold]. *)
Theorem search_with_threshold_monotone (m : Manager) (q : Emb) (t1 t2 : Q) (k : nat)
    (r1 r2 : list MatchResult) :
  t1 <= t2 ->
  search_with_threshold m q t1 k = Ok r1 ->
  search_with_threshold m q t2 k = Ok r2 ->
  (length r2 <= length r1)%nat.
Proof.
  intros Ht H1 H2. destruct (index m) as [ix|] eqn:Hix.
  - destruct (swt_rows m ix q t1 k r1 Hix H1) as [a [Ha ->]].
    destruct (swt_rows m ix q t2 k r2 Hix H2) as [b [Hb ->]].
    unfold sort_desc_by. rewrite !sort_by_length.
    destruct (collect_spec _ _ _ _ Ha) as [Hma _].
    destruct (collect_spec _ _ _ _ Hb) as [Hmb _].
    apply (f_equal (@length _)) in Hma, Hmb. rewrite length_map in Hma, Hmb.
    rewrite Hma, Hmb. apply filter_length_mono.
    intros [d i]. unfold keep_row. simpl. rewrite !andb_true_iff, !Qle_bool_iff.
    intros [Hi Hs]. split; [exact Hi | eapply Qle_trans; eassumption].
  - rewrite swt_no_index in H1 by exact Hix. discriminate.
Qed.

Lemma search_with_threshold_monotone_witness :
  0 <= 1#2 /\
  search_with_threshold mgr_a q_a 0 4 = Ok res_a /\
  search_with_threshold mgr_a q_a (1#2) 4 = Ok res_a_half /\
  (length res_a_half <= length res_a)%nat.
Proof.
  split; [vm_compute; discriminate|].
  split; [vm_compute; reflexivity|].
  split; [vm_compute; reflexivity|].
  apply (search_with_threshold_monotone mgr_a q_a 0 (1#2) 4 res_a res_a_half).
  - vm_compute. discriminate.
  - vm_compute. reflexivity.
  - vm_compute. reflexivity.
Defined.

(** ** C3 *)

(** C3 (amended): for every photo produced by the face-mode grouping
    (shared by [find_photos] and [find_photos_by_embedding]), its group of
    matches is non-empty, [max_similarity] is the larger of [0.0] and the
    members' largest similarity, [avg_similarity] is the sum of the members'
    similarities divided by their number, and [num_matches] is that
    number. *)
Theorem group_faces_stats (ms : list MatchResult) (ps : list PhotoInfo) :
  group_faces ms = Ok ps ->
  forall p, In p ps ->
    let sims := map similarity (members (pi_image_path p) ms) in
    sims <> [] /\
    max_from_zero (max_similarity p) sims /\
    avg_similarity p = qsum sims / inject_Z (Z.of_nat (length sims)) /\
    num_matches p = length sims.
Proof.
  unfold group_faces. intros H p Hp. cbv zeta.
  destruct (group_loop [] ms) as [groups|e] eqn:Hg; simpl in H; [|discriminate].
  injection H as <-.
  destruct (group_loop_inv ms [] [] groups group_inv_nil Hg) as [I1 _].
  simpl in I1. unfold dict_values in Hp. rewrite map_map in Hp.
  apply in_map_iff in Hp as [[k g] [<- Hin]].
  destruct (I1 k g Hin) as [A1 [A2 [A3 A4]]].
  unfold finalize. simpl. rewrite A1, A2.
  split; [intros C; apply map_eq_nil in C; contradiction|].
  split; [exact A3|]. split; [reflexivity|].
  apply (f_equal (@length _)) in A2. rewrite !length_map in A2. rewrite length_map. exact A2.
Qed.

Lemma group_faces_stats_witness :
  group_faces res_a = Ok ps_a /\
  (forall p, In p ps_a ->
    let sims := map similarity (members (pi_image_path p) res_a) in
    sims <> [] /\
    max_from_zero (max_similarity p) sims /\
    avg_similarity p = qsum sims / inject_Z (Z.of_nat (length sims)) /\
    num_matches p = length sims).
Proof.
  split; [vm_compute; reflexivity|].
  apply (group_faces_stats res_a ps_a). vm_compute. reflexivity.
Defined.

(** C3 fails as stated: a photo whose only matching face has similarity
    [-3/5] (reachable with threshold [-1]) gets [max_similarity = 0]. *)
Lemma face_group_max_counterexample :
  fst (find_photos_by_embedding mgr_neg q_a (-1) 10 None []) = Ok fpe_neg /\
  map max_similarity (matches fpe_neg) = [0] /\
  map (fun p => option_map (map fi_similarity) (pi_faces p)) (matches fpe_neg)
    = [Some [cosine_of (sqdist q_a [-3#5; 4#5])]] /\
  cosine_of (sqdist q_a [-3#5; 4#5]) == -3#5 /\
  ~ (0 == -3#5).
Proof.
  split; [vm_compute; reflexivity|].
  split; [vm_compute; reflexivity|].
  split; [vm_compute; reflexivity|].
  split; [vm_compute; reflexivity|].
  vm_compute. intros H. discriminate H.
Qed.

(** ** C7 *)

(** C7: [load_index] on a path that does not exist raises
    [FileNotFoundError] and leaves the manager (and the disk) as they
    were. *)
Theorem load_index_missing_path (m : Manager) (fs : FS) (p : string) :
  path_exists fs p = false ->
  load_index p (m, fs) = (Raise FileNotFoundError, (m, fs)).
Proof.
  intros H. unfold load_index, bind, get. simpl. rewrite H. reflexivity.
Qed.

Lemma load_index_missing_path_witness :
  path_exists fs_mis "data/embeddings/other.index" = false /\
  load_index "data/embeddings/other.index" (mgr_mis, fs_mis)
  = (Raise FileNotFoundError, (mgr_mis, fs_mis)).
Proof.
  split; [vm_compute; reflexivity|].
  apply load_index_missing_path. vm_compute. reflexivity.
Defined.

(** ** C10 *)

(** C10: with no index created or loaded, [save_index] raises
    [ValueError] before creating any directory or writing any file. *)
Theorem save_index_without_index (m : Manager) (fs : FS) (p : string) :
  index m = None ->
  save_index p (m, fs) = (Raise ValueError, (m, fs)).
Proof.
  intros H. unfold save_index, bind, get. simpl. rewrite H. reflexivity.
Qed.

Lemma save_index_without_index_witness :
  index (new_manager 512) = None /\
  save_index "data/embeddings/faiss.index" (new_manager 512, fs_mis)
  = (Raise ValueError, (new_manager 512, fs_mis)).
Proof.
  split; [reflexivity|].
  apply save_index_without_index. reflexivity.
Defined.

(** ** C9 *)

(** C9: when [find_photos] gets both a selfie and a text, or neither, it
    returns [success = False] with a message and no matches, and makes no
    call to the model or to the index (the call trace is unchanged). *)
Theorem find_photos_needs_exactly_one_query (pv : Provider) (m : Manager)
    (selfie_path text_query : option string) (thr : Q) (k : nat) (tr : list Event) :
  truthy selfie_path = truthy text_query ->
  exists r, find_photos pv m selfie_path text_query thr k tr = (Ok r, tr) /\
            success r = false /\ message r <> ""%string /\ matches r = [].
Proof.
  intros H. unfold find_photos. rewrite H.
  destruct (truthy text_query); simpl.
  - eexists. split; [reflexivity|]. simpl. split; [reflexivity|].
    split; [discriminate | reflexivity].
  - eexists. split; [reflexivity|]. simpl. split; [reflexivity|].
    split; [discriminate | reflexivity].
Qed.

Lemma find_photos_needs_exactly_one_query_witness :
  truthy (Some "me.jpg"%string) = truthy (Some "a dog"%string) /\
  exists r, find_photos pv_a mgr_a (Some "me.jpg"%string) (Some "a dog"%string) (1#2) 100 []
            = (Ok r, []) /\
            success r = false /\ message r <> ""%string /\ matches r = [].
Proof.
  split; [reflexivity|].
  apply find_photos_needs_exactly_one_query. reflexivity.
Defined.

(** ** C8 *)

(** C8: when the search finds nothing above the threshold for the query
    embedding, [find_photos] and [find_photos_by_embedding] both return a
    result (no exception) with [success = False], a non-empty message and
    no matches. *)
Theorem no_match_is_a_result (pv : Provider) (m : Manager)
    (selfie_path text_query : option string) (qe : Emb) (person_name : option string)
    (thr : Q) (k : nat) (tr : list Event) :
  (truthy text_query = true ->
   search_with_threshold m (encode_text pv (str_or text_query "")) thr k = Ok []) ->
  (forall e, extract_single_face_embedding pv (str_or selfie_path "") = Some e ->
   search_with_threshold m e thr k = Ok []) ->
  search_with_threshold m qe thr k = Ok [] ->
  (exists r tr', find_photos pv m selfie_path text_query thr k tr = (Ok r, tr') /\
                 success r = false /\ message r <> ""%string /\ matches r = []) /\
  (exists r tr', find_photos_by_embedding m qe thr k person_name tr = (Ok r, tr') /\
                 success r = false /\ message r <> ""%string /\ matches r = []).
Proof.
  intros Htext Hface Hemb. split.
  - unfold find_photos.
    destruct (truthy selfie_path) eqn:Es, (truthy text_query) eqn:Et; simpl.
    + do 2 eexists. split; [reflexivity|]. simpl. split; [reflexivity|].
      split; [discriminate | reflexivity].
    + destruct (extract_single_face_embedding pv (str_or selfie_path "")) as [e|] eqn:Ee;
        unfold bind, emit; simpl.
      * unfold find_photos_tail, bind, emit, lift. simpl.
        rewrite (Hface e eq_refl). simpl.
        do 2 eexists. split; [reflexivity|]. simpl. split; [reflexivity|].
        split; [discriminate | reflexivity].
      * do 2 eexists. split; [reflexivity|]. simpl. split; [reflexivity|].
        split; [discriminate | reflexivity].
    + unfold find_photos_tail, bind, emit, lift. simpl.
      rewrite (Htext eq_refl). simpl.
      do 2 eexists. split; [reflexivity|]. simpl. split; [reflexivity|].
      split; [discriminate | reflexivity].
    + do 2 eexists. split; [reflexivity|]. simpl. split; [reflexivity|].
      split; [discriminate | reflexivity].
  - unfold find_photos_by_embedding.
    destruct (index m) as [ix|] eqn:Hix.
    + unfold bind, emit, lift. simpl. rewrite Hemb. simpl.
      do 2 eexists. split; [reflexivity|]. simpl. split; [reflexivity|].
      split; [discriminate | reflexivity].
    + rewrite swt_no_index in Hemb by exact Hix. discriminate.
Qed.

Lemma no_match_is_a_result_witness :
  (exists r tr', find_photos pv_a mgr_a (Some "me.jpg"%string) None 2 100 [] = (Ok r, tr') /\
                 success r = false /\ message r <> ""%string /\ matches r = []) /\
  (exists r tr', find_photos_by_embedding mgr_a q_a 2 100 None [] = (Ok r, tr') /\
                 success r = false /\ message r <> ""%string /\ matches r = []).
Proof.
  apply (no_match_is_a_result pv_a mgr_a (Some "me.jpg"%string) None q_a None 2 100 []).
  - intros H. discriminate H.
  - intros e He. simpl in He. injection He as <-. vm_compute. reflexivity.
  - vm_compute. reflexivity.
Defined.

(** ** C2 *)

(** C2 (amended): [find_photos] itself does not look at the index mode
    for a text query: on an index whose mode is not ['full_image'] the text
    is encoded, the index is searched, and the matches are grouped by image
    like a face query, with [success = True] when there are matches.  The
    refusal exists in the semantic-search tab of [app.py], which answers
    with an error message and calls neither the model nor the index when the
    first metadata record is not in ['full_image'] mode. *)
Theorem text_query_mode_gate_in_app (pv : Provider) (m : Manager) (t : string) (thr : Q)
    (k : nat) (tr : list Event) (ms : list MatchResult) (ps : list PhotoInfo) :
  t <> ""%string ->
  index_mode m <> "full_image"%string ->
  search_with_threshold m (encode_text pv t) thr k = Ok ms ->
  ms <> [] ->
  group_faces ms = Ok ps ->
  (exists r, find_photos pv m None (Some t) thr k tr
             = (Ok r, tr ++ [EvEncodeText t; EvSearch]) /\
             success r = true /\ matches r = sort_desc_by max_similarity ps) /\
  (metadata m <> [] ->
   exists msg, semantic_search pv m t thr tr = (Ok (UIError msg), tr)).
Proof.
  intros Ht Hmode Hs Hne Hg. split.
  - unfold find_photos. simpl.
    apply String.eqb_neq in Ht. rewrite Ht. simpl.
    unfold find_photos_tail, bind, emit, lift. simpl.
    rewrite Hs. destruct ms as [|m0 ms']; [contradiction|].
    apply String.eqb_neq in Hmode. rewrite Hmode, Hg. unfold ret.
    eexists. split; [rewrite <- app_assoc; reflexivity|].
    split; reflexivity.
  - intros Hmd. unfold semantic_search. unfold index_mode in Hmode.
    destruct (metadata m) as [|md0 rest]; [contradiction|].
    apply String.eqb_neq in Hmode. rewrite Hmode. simpl.
    eexists. reflexivity.
Qed.

Lemma text_query_mode_gate_in_app_witness :
  index_mode mgr_a = "face"%string /\
  (exists r, find_photos pv_a mgr_a None (Some "a dog"%string) 0 4 []
             = (Ok r, [EvEncodeText "a dog"; EvSearch]) /\
             success r = true /\ matches r = sort_desc_by max_similarity ps_a) /\
  (metadata mgr_a <> [] ->
   exists msg, semantic_search pv_a mgr_a "a dog" 0 [] = (Ok (UIError msg), [])).
Proof.
  split; [reflexivity|].
  apply (text_query_mode_gate_in_app pv_a mgr_a "a dog" 0 4 [] res_a ps_a).
  - discriminate.
  - vm_compute. discriminate.
  - vm_compute. reflexivity.
  - vm_compute. discriminate.
  - vm_compute. reflexivity.
Defined.

(** C2, counterexample to the text as written: a text query on the
    face-mode index [mgr_a] is not refused by [find_photos]; the text is
    encoded, the index searched, and the result reports success. *)
Lemma text_query_face_index_counterexample :
  index_mode mgr_a = "face"%string /\
  match find_photos pv_a mgr_a None (Some "a dog"%string) 0 4 [] with
  | (Ok r, tr) => success r = true /\ tr = [EvEncodeText "a dog"; EvSearch]
  | _ => False
  end.
Proof.
  split; [reflexivity|].
  vm_compute. split; reflexivity.
Qed.

(** ** C4 *)

(** C4 (amended): the counts are never compared.  [PhotoRetriever]
    loads any readable index file and metadata file whatever their sizes.
    Every hit of [search_with_threshold] has a label below the vector
    count; a hit whose label is beyond the metadata list carries no
    metadata ([None]), and otherwise it carries the record at its own
    position.  So records beyond the vector count are never returned. *)
Theorem index_metadata_counts_unchecked (fs : FS) (ip mp : string) (ix : Index)
    (md : list Meta) :
  dict_get ip (fs_files fs) = Some (FIndex ix) ->
  dict_get mp (fs_files fs) = Some (FMetaJson md) ->
  retriever_init fs ip mp
  = Ok {| embedding_dim := 512; index := Some ix; metadata := md |} /\
  (forall q thr k res r,
     search_with_threshold {| embedding_dim := 512; index := Some ix; metadata := md |}
       q thr k = Ok res ->
     In r res ->
     (0 <= face_id r < Z.of_nat (ntotal ix))%Z /\
     ((Z.of_nat (length md) <= face_id r)%Z -> mr_metadata r = None) /\
     (forall mdr, mr_metadata r = Some mdr -> nth_error md (Z.to_nat (face_id r)) = Some mdr)).
Proof.
  intros Hi Hm. split.
  - unfold retriever_init, load_index, load_metadata, bind, get, put, ret, lift.
    simpl. unfold path_exists, dict_mem, read_index, read_meta_json.
    rewrite Hi. simpl. rewrite Hm. simpl. reflexivity.
  - intros q thr k res r Hs Hr.
    destruct (swt_res_facts {| embedding_dim := 512; index := Some ix; metadata := md |}
                ix q thr k res eq_refl Hs) as [_ [_ [_ Hf]]].
    rewrite Forall_forall in Hf. destruct (Hf r Hr) as [Hrange [_ Hnone]].
    split; [exact Hrange|]. split; [exact Hnone|].
    destruct (swt_rows {| embedding_dim := 512; index := Some ix; metadata := md |}
                ix q thr k res eq_refl Hs) as [res0 [Hc ->]].
    pose proof (collect_meta _ _ _ _ Hc) as Hmeta. rewrite Forall_forall in Hmeta.
    apply (Permutation_in r (sort_by_perm _ res0)) in Hr.
    intros mdr Hmdr. apply (Hmeta r Hr mdr Hmdr), Hrange.
Qed.

Lemma index_metadata_counts_unchecked_witness :
  dict_get "data/embeddings/faiss.index" (fs_files fs_mis) = Some (FIndex ix_a) /\
  dict_get "data/embeddings/metadata.json" (fs_files fs_mis)
    = Some (FMetaJson [face_md 0 "a.jpg"]) /\
  (retriever_init fs_mis "data/embeddings/faiss.index" "data/embeddings/metadata.json"
   = Ok {| embedding_dim := 512; index := Some ix_a; metadata := [face_md 0 "a.jpg"] |} /\
   (forall q thr k res r,
      search_with_threshold
        {| embedding_dim := 512; index := Some ix_a; metadata := [face_md 0 "a.jpg"] |}
        q thr k = Ok res ->
      In r res ->
      (0 <= face_id r < Z.of_nat (ntotal ix_a))%Z /\
      ((Z.of_nat (length [face_md 0 "a.jpg"]) <= face_id r)%Z -> mr_metadata r = None) /\
      (forall mdr, mr_metadata r = Some mdr ->
         nth_error [face_md 0 "a.jpg"] (Z.to_nat (face_id r)) = Some mdr))).
Proof.
  split; [reflexivity|]. split; [reflexivity|].
  apply index_metadata_counts_unchecked; reflexivity.
Defined.

(** C4 fails as stated: an index of four vectors with a metadata file of
    one record is loaded without complaint, the search returns hits without
    metadata, and the face-mode grouping then fails on them with
    [TypeError]; no integrity error is ever reported. *)
Lemma index_count_mismatch_counterexample :
  retriever_init fs_mis "data/embeddings/faiss.index" "data/embeddings/metadata.json"
    = Ok mgr_mis /\
  index mgr_mis = Some ix_a /\ ntotal ix_a = 4%nat /\ length (metadata mgr_mis) = 1%nat /\
  search_with_threshold mgr_mis q_a 0 4 = Ok res_mis /\
  existsb (fun r => match mr_metadata r with None => true | Some _ => false end) res_mis
    = true /\
  fst (find_photos_by_embedding mgr_mis q_a 0 4 None []) = Raise TypeError.
Proof.
  repeat split; vm_compute; reflexivity.
Qed.

(** ** C1 *)

(** C1 (amended): a registration that reaches the store sets the profile
    under the stripped name by plain dict assignment: the entry whose key
    is exactly that name (case-sensitively) is overwritten in place, every
    other key keeps its profile, and a name not present with that exact
    spelling is added as a new key. *)
Theorem register_person_exact_key (pv : Provider) (name selfie_path : string)
    (pm : PersonManager) (fs : FS) (e : Emb) :
  strip name <> ""%string ->
  path_exists fs selfie_path = true ->
  extract_single_face_embedding pv selfie_path = Some e ->
  let pm' := fst (snd (register_person pv name selfie_path (pm, fs))) in
  dict_get (strip name) (profiles pm')
    = Some {| pr_embedding := e; pr_selfie_path := selfie_path |} /\
  (forall k, k <> strip name -> dict_get k (profiles pm') = dict_get k (profiles pm)) /\
  dict_keys (profiles pm')
    = (if dict_mem (strip name) (profiles pm) then dict_keys (profiles pm)
       else dict_keys (profiles pm) ++ [strip name]).
Proof.
  intros Hn Hx He. cbv zeta.
  rewrite (register_person_profiles pv name selfie_path pm fs e Hn Hx He).
  split; [apply dict_set_get|]. split; [|apply dict_set_keys].
  intros k Hk. apply dict_set_get_other, Hk.
Qed.

Lemma register_person_exact_key_witness :
  let pm' := fst (snd reg_ann) in
  dict_get "ann" (profiles pm')
    = Some {| pr_embedding := q_a; pr_selfie_path := "ann2.jpg" |} /\
  (forall k, k <> "ann"%string -> dict_get k (profiles pm') = dict_get k (profiles (fst (snd reg_Ann)))) /\
  dict_keys (profiles pm')
    = (if dict_mem "ann" (profiles (fst (snd reg_Ann))) then dict_keys (profiles (fst (snd reg_Ann)))
       else dict_keys (profiles (fst (snd reg_Ann))) ++ ["ann"%string]).
Proof.
  unfold reg_ann. destruct (snd reg_Ann) as [pmA fsA] eqn:EA.
  apply (register_person_exact_key pv_a "ann" "ann2.jpg" pmA fsA q_a).
  - discriminate.
  - assert (Hfs : fsA = snd (snd reg_Ann)) by (rewrite EA; reflexivity).
    rewrite Hfs. vm_compute. reflexivity.
  - reflexivity.
Defined.

(** C1 fails as stated: registering ["Ann"] and then ["ann"] (both
    successful) leaves two profiles, and [get_all_names] lists both. *)
Lemma register_case_variant_counterexample :
  match fst reg_Ann with Ok r => reg_success r = true | Raise _ => False end /\
  match fst reg_ann with Ok r => reg_success r = true | Raise _ => False end /\
  get_all_names (fst (snd reg_ann)) = ["Ann"; "ann"]%string /\
  length (get_all_names (fst (snd reg_ann))) = 2%nat.
Proof.
  repeat split; vm_compute; reflexivity.
Qed.

(* ================================================================== *)
(** * Further properties of the code *)

(** ** The index search *)

(** X1: with an index loaded, a query of the index's width and
    [max_results > 0], [search_with_threshold] returns a list (it does not
    raise) of at most [max_results] and at most [ntotal] matches, with
    pairwise distinct face ids, each a position of the index. *)
Theorem search_with_threshold_bounded (m : Manager) (ix : Index) (q : Emb) (thr : Q)
    (k : nat) :
  index m = Some ix -> length q = ix_d ix -> k <> 0%nat ->
  exists res, search_with_threshold m q thr k = Ok res /\
    (length res <= k)%nat /\ (length res <= ntotal ix)%nat /\
    NoDup (map face_id res) /\
    Forall (fun r => (0 <= face_id r < Z.of_nat (ntotal ix))%Z) res.
Proof.
  intros Hix Hq Hk. destruct (swt_facts m ix q thr k Hix Hq Hk) as [res0 [Hs _]].
  exists (sort_desc_by similarity res0). split; [exact Hs|].
  destruct (swt_res_facts m ix q thr k _ Hix Hs) as [A [B [C D]]].
  repeat split; try assumption.
  eapply Forall_impl; [|exact D]. intros r [H _]. exact H.
Qed.

Lemma search_with_threshold_bounded_witness :
  index mgr_a = Some ix_a /\ length q_a = ix_d ix_a /\ 4%nat <> 0%nat /\
  exists res, search_with_threshold mgr_a q_a 0 4 = Ok res /\
    (length res <= 4)%nat /\ (length res <= ntotal ix_a)%nat /\
    NoDup (map face_id res) /\
    Forall (fun r => (0 <= face_id r < Z.of_nat (ntotal ix_a))%Z) res.
Proof.
  split; [reflexivity|]. split; [reflexivity|]. split; [discriminate|].
  apply (search_with_threshold_bounded mgr_a ix_a q_a 0 4).
  - reflexivity.
  - reflexivity.
  - discriminate.
Defined.

(** X2: after [create_index(embeddings)] with rows of the manager's
    width, querying with row [i] and [max_results] at least the number of
    rows returns, for any threshold at most [1], a match for face [i] at
    distance [0] with similarity [1]. *)
Theorem create_index_then_query_finds_row (m : Manager) (fs : FS) (a : Array2) (i : nat)
    (v : Emb) (thr : Q) (k : nat) :
  a_cols a = embedding_dim m -> length v = a_cols a ->
  nth_error (a_rows a) i = Some v -> (length (a_rows a) <= k)%nat -> thr <= 1 ->
  exists m1 res r,
    create_index a (m, fs) = (Ok tt, (m1, fs)) /\
    search_with_threshold m1 v thr k = Ok res /\
    In r res /\ face_id r = Z.of_nat i /\ distance r == 0 /\ similarity r == 1.
Proof.
  intros Hw Hv Hi Hk Ht.
  set (ix1 := {| ix_d := embedding_dim m; ix_vectors := a_rows a |}).
  exists (set_index m (Some ix1)).
  assert (Hc : create_index a (m, fs) = (Ok tt, (set_index m (Some ix1), fs))).
  { unfold create_index, bind, get, put. simpl. rewrite Hw, Nat.eqb_refl. reflexivity. }
  assert (Hlt : (i < length (a_rows a))%nat) by (apply nth_error_Some; congruence).
  assert (Hk0 : k <> 0%nat) by lia.
  destruct (swt_facts (set_index m (Some ix1)) ix1 v thr k eq_refl) as [res0 [Hs [H1 H2]]];
    [simpl; congruence | exact Hk0 |].
  exists (sort_desc_by similarity res0).
  assert (Hrow : In (sqdist v v, Z.of_nat i)
                   (filter (keep_row thr) (firstn k (sort_by before_dist_id (scored ix1 v))))).
  { apply filter_In. split.
    - rewrite firstn_all2.
      + eapply Permutation_in; [symmetry; apply sort_by_perm|].
        apply in_scored_nth. exact Hi.
      + rewrite sort_by_length, scored_length. exact Hk.
    - unfold keep_row. simpl.
      assert (E : Z.eqb (Z.of_nat i) (-1) = false) by (apply Z.eqb_neq; lia).
      rewrite E. simpl. apply Qle_bool_iff.
      rewrite (cosine_of_eq _ _ (sqdist_self v)).
      unfold cosine_of. setoid_replace (0 / 2) with 0 by reflexivity.
      setoid_replace (1 - 0) with 1 by reflexivity. exact Ht. }
  rewrite <- H1 in Hrow. apply in_map_iff in Hrow as [r [Hr Hin]].
  injection Hr as Hd Hid.
  exists r. split; [exact Hc|]. split; [exact Hs|]. split.
  - eapply Permutation_in; [symmetry; apply sort_by_perm | exact Hin].
  - rewrite Forall_forall in H2. destruct (H2 r Hin) as [Hsim _].
    split; [exact Hid|]. split.
    + rewrite Hd. apply sqdist_self.
    + rewrite Hsim, Hd. rewrite (cosine_of_eq _ _ (sqdist_self v)). reflexivity.
Qed.

Lemma create_index_then_query_finds_row_witness :
  exists m1 res r,
    create_index {| a_cols := 2; a_rows := ix_vectors ix_a |}
      (new_manager 2, fs_empty) = (Ok tt, (m1, fs_empty)) /\
    search_with_threshold m1 [-3#5; 4#5] (1#2) 4 = Ok res /\
    In r res /\ face_id r = Z.of_nat 1 /\ distance r == 0 /\ similarity r == 1.
Proof.
  apply (create_index_then_query_finds_row (new_manager 2) fs_empty
           {| a_cols := 2; a_rows := ix_vectors ix_a |} 1 [-3#5; 4#5] (1#2) 4).
  - reflexivity.
  - reflexivity.
  - reflexivity.
  - simpl. lia.
  - unfold Qle. simpl. lia.
Defined.

(** ** Retriever results *)

Lemma Sorted_weaken {A} (R R' : A -> A -> Prop) (l : list A) :
  (forall a b, R a b -> R' a b) -> Sorted R l -> Sorted R' l.
Proof.
  intros Himp H. induction H as [|a l Hs IH Hhd]; constructor; [exact IH|].
  destruct Hhd; constructor. apply Himp. assumption.
Qed.

Lemma sort_desc_by_sorted {A} (key : A -> Q) (l : list A) :
  Sorted (fun a b => key b <= key a) (sort_desc_by key l).
Proof.
  unfold sort_desc_by.
  eapply Sorted_weaken; [|apply sort_by_sorted].
  - intros a b H. apply Qle_bool_iff, H.
  - intros a b H. apply Qle_bool_iff.
    assert (Hn : ~ key b <= key a) by (intros C; apply Qle_bool_iff in C; congruence).
    apply Qlt_le_weak, Qnot_le_lt, Hn.
Qed.

Lemma tail_result_sorted (m : Manager) (qi : QueryInfo) (qe : Emb) (thr : Q) (k : nat)
    (tr tr' : list Event) (r : PyResult) :
  find_photos_tail m qi qe thr k tr = (Ok r, tr') ->
  total_photos r = length (matches r) /\
  Sorted (fun a b => max_similarity b <= max_similarity a) (matches r).
Proof.
  unfold find_photos_tail, bind, emit, lift, ret. simpl.
  destruct (search_with_threshold m qe thr k) as [ms|e]; [|discriminate].
  destruct ms as [|h ms].
  - intros H. injection H as <- _. simpl. split; [reflexivity | constructor].
  - destruct (if String.eqb (index_mode m) "full_image" then full_image_photos (h :: ms)
              else group_faces (h :: ms)) as [ps|e]; [|discriminate].
    intros H. injection H as <- _. simpl. split; [reflexivity | apply sort_desc_by_sorted].
Qed.

(** X3: every result dictionary the two search entry points return
    ([find_photos] and [find_photos_by_embedding]) has [total_photos] equal
    to the number of [matches], and the matches in non-increasing
    [max_similarity] order, so [matches[0]] is the best photo. *)
Theorem retriever_results_sorted (pv : Provider) (m : Manager)
    (selfie_path text_query : option string) (thr : Q) (k : nat) (tr tr' : list Event)
    (r : PyResult) :
  (find_photos pv m selfie_path text_query thr k tr = (Ok r, tr') \/
   exists qe person_name, find_photos_by_embedding m qe thr k person_name tr = (Ok r, tr')) ->
  total_photos r = length (matches r) /\
  Sorted (fun a b => max_similarity b <= max_similarity a) (matches r).
Proof.
  intros [H|[qe [name H]]].
  - unfold find_photos in H.
    destruct (truthy selfie_path), (truthy text_query); simpl in H;
      unfold bind, emit, ret in H; simpl in H;
      try (injection H as <- _; split; [reflexivity | constructor]);
      try (eapply tail_result_sorted; exact H).
    destruct (extract_single_face_embedding pv (str_or selfie_path "")) as [qe|].
    + eapply tail_result_sorted; exact H.
    + injection H as <- _. split; [reflexivity | constructor].
  - unfold find_photos_by_embedding in H. destruct (index m); [|discriminate].
    unfold bind, emit, lift, ret in H. simpl in H.
    destruct (search_with_threshold m qe thr k) as [ms|e]; [|discriminate].
    destruct ms as [|h ms].
    + injection H as <- _. split; [reflexivity | constructor].
    + destruct (group_faces (h :: ms)) as [ps|e]; [|discriminate].
      injection H as <- _. simpl. split; [reflexivity | apply sort_desc_by_sorted].
Qed.

Lemma retriever_results_sorted_witness :
  let o := find_photos pv_a mgr_a (Some "me.jpg"%string) None 0 4 [] in
  let r := out_or (fst o) empty_result in
  total_photos r = length (matches r) /\
  Sorted (fun a b => max_similarity b <= max_similarity a) (matches r).
Proof.
  intros o r.
  apply (retriever_results_sorted pv_a mgr_a (Some "me.jpg"%string) None 0 4 [] (snd o) r).
  left. vm_compute. reflexivity.
Defined.

(** *** Face-mode grouping: one photo per image *)

Lemma dict_update_notin {V} (k : string) (f : V -> V) (d : list (string * V)) :
  ~ In k (map fst d) -> dict_update k f d = d.
Proof.
  induction d as [|[k0 v0] d IH]; simpl; intros H; [reflexivity|].
  destruct (String.eqb_spec k0 k) as [->|_]; [exfalso; apply H; left; reflexivity|].
  f_equal. apply IH. intros C. apply H. right. exact C.
Qed.

Lemma group_sizes_update (p : string) (f : Group -> Group) (d : list (string * Group)) :
  NoDup (map fst d) -> In p (map fst d) ->
  (forall g, length (g_faces (f g)) = S (length (g_faces g))) ->
  group_sizes (dict_update p f d) = S (group_sizes d).
Proof.
  unfold group_sizes.
  induction d as [|[k0 g0] d IH]; simpl; intros Hnd Hin Hf; [contradiction|].
  inversion Hnd as [|? ? Hni Hnd']; subst.
  destruct (String.eqb_spec k0 p) as [->|Hne]; simpl.
  - rewrite Hf. rewrite (dict_update_notin p f d Hni). reflexivity.
  - destruct Hin as [Hin|Hin]; [congruence|]. rewrite (IH Hnd' Hin Hf). lia.
Qed.

Lemma add_match_facts (groups : list (string * Group)) (md : Meta) (r : MatchResult) :
  NoDup (map fst groups) ->
  NoDup (map fst (add_match groups md r)) /\
  group_sizes (add_match groups md r) = S (group_sizes groups).
Proof.
  intros Hnd. unfold add_match.
  set (p := image_path md).
  set (groups1 := if dict_mem p groups then groups else groups ++ [(p, new_group p)]).
  assert (H1 : NoDup (map fst groups1) /\ In p (map fst groups1) /\
               group_sizes groups1 = group_sizes groups).
  { unfold groups1. destruct (dict_mem p groups) eqn:E.
    - split; [exact Hnd|]. split; [apply dict_mem_keys, E | reflexivity].
    - assert (Hni : ~ In p (map fst groups)) by (rewrite <- dict_mem_keys; congruence).
      rewrite map_app. simpl. split; [|split].
      + apply NoDup_app; [exact Hnd | repeat constructor; simpl; tauto |].
        intros x Hx [<-|[]]. contradiction.
      + apply in_or_app. right. left. reflexivity.
      + unfold group_sizes. rewrite map_app, list_sum_app. simpl. lia. }
  destruct H1 as [Hnd1 [Hp1 Hs1]].
  split.
  - rewrite dict_update_keys. exact Hnd1.
  - rewrite group_sizes_update; [congruence | exact Hnd1 | exact Hp1 |].
    intros g. simpl. rewrite length_app. simpl. lia.
Qed.

Lemma group_loop_facts (ms : list MatchResult) (groups res : list (string * Group)) :
  NoDup (map fst groups) -> group_loop groups ms = Ok res ->
  NoDup (map fst res) /\ group_sizes res = (group_sizes groups + length ms)%nat.
Proof.
  revert groups; induction ms as [|h ms IH]; intros groups Hnd H; simpl in H.
  - injection H as <-. split; [exact Hnd | simpl; lia].
  - destruct (mr_metadata h) as [md|]; [|discriminate].
    destruct (add_match_facts groups md h Hnd) as [A B].
    destruct (IH _ A H) as [C D]. split; [exact C|]. rewrite D, B. simpl. lia.
Qed.

Lemma group_faces_partition (ms : list MatchResult) (ps : list PhotoInfo) :
  group_faces ms = Ok ps ->
  NoDup (map pi_image_path ps) /\ list_sum (map num_matches ps) = length ms /\
  (forall p, In p (map pi_image_path ps) <->
             exists h md, In h ms /\ mr_metadata h = Some md /\ image_path md = p).
Proof.
  unfold group_faces. destruct (group_loop [] ms) as [res|e] eqn:Hg; simpl; [|discriminate].
  intros H. injection H as <-.
  destruct (group_loop_facts ms [] res (NoDup_nil _) Hg) as [Hnd Hsz].
  destruct (group_loop_inv ms [] [] res group_inv_nil Hg) as [I1 I2].
  simpl in I1, I2.
  assert (Hpaths : map pi_image_path (map finalize (dict_values res)) = map fst res).
  { unfold dict_values. rewrite !map_map. apply map_ext_in. intros [k g] Hin.
    simpl. apply (I1 k g Hin). }
  rewrite Hpaths. split; [exact Hnd|]. split.
  - unfold dict_values. rewrite !map_map. unfold group_sizes in Hsz. simpl in Hsz.
    rewrite <- Hsz. reflexivity.
  - intros p. split.
    + intros Hin. apply in_map_iff in Hin as [[k g] [Hk Hin]]. simpl in Hk. subst k.
      destruct (I1 p g Hin) as [_ [_ [_ Hne]]].
      destruct (members p ms) as [|h rest] eqn:Em; [congruence|].
      assert (Hh : In h (members p ms)) by (rewrite Em; left; reflexivity).
      unfold members in Hh. apply filter_In in Hh as [Hh Hm].
      destruct (mr_metadata h) as [md|] eqn:Emd; [|discriminate].
      exists h, md. split; [exact Hh|]. split; [exact Emd|]. apply String.eqb_eq, Hm.
    + intros [h [md [Hh [Hmd <-]]]]. apply (I2 h md Hh Hmd).
Qed.

(** X4: a successful [find_photos_by_embedding] lists each event photo
    once: the image paths of [matches] are pairwise distinct, they are
    exactly the images of the threshold-passing faces, and the
    [num_matches] of the photos add up to the number of those faces. *)
Theorem registered_search_one_entry_per_photo (m : Manager) (qe : Emb) (thr : Q) (k : nat)
    (person_name : option string) (tr tr' : list Event) (r : PyResult)
    (ms : list MatchResult) :
  find_photos_by_embedding m qe thr k person_name tr = (Ok r, tr') ->
  search_with_threshold m qe thr k = Ok ms ->
  NoDup (map pi_image_path (matches r)) /\
  list_sum (map num_matches (matches r)) = length ms /\
  (forall p, In p (map pi_image_path (matches r)) <->
             exists h md, In h ms /\ mr_metadata h = Some md /\ image_path md = p).
Proof.
  intros H Hs. unfold find_photos_by_embedding in H. destruct (index m); [|discriminate].
  unfold bind, emit, lift, ret in H. simpl in H. rewrite Hs in H.
  destruct ms as [|h ms'].
  - injection H as <- _. simpl. split; [constructor|]. split; [reflexivity|].
    intros p. split; [intros []|]. intros [h [md [[] _]]].
  - destruct (group_faces (h :: ms')) as [ps|e] eqn:Hg; [|discriminate].
    injection H as <- _. simpl.
    destruct (group_faces_partition _ _ Hg) as [A [B C]].
    assert (Hp : Permutation (sort_desc_by max_similarity ps) ps) by apply sort_by_perm.
    split; [|split].
    + eapply Permutation_NoDup; [apply Permutation_map; symmetry; exact Hp | exact A].
    + transitivity (list_sum (map num_matches ps)); [|exact B].
      apply Permutation_list_sum, Permutation_map, Hp.
    + intros p. rewrite <- C. split; apply Permutation_in.
      * apply Permutation_map, Hp.
      * apply Permutation_map. symmetry. exact Hp.
Qed.

Lemma registered_search_one_entry_per_photo_witness :
  let o := find_photos_by_embedding mgr_a q_a 0 4 None [] in
  let r := out_or (fst o) empty_result in
  NoDup (map pi_image_path (matches r)) /\
  list_sum (map num_matches (matches r)) = length res_a /\
  (forall p, In p (map pi_image_path (matches r)) <->
             exists h md, In h res_a /\ mr_metadata h = Some md /\ image_path md = p).
Proof.
  intros o r.
  apply (registered_search_one_entry_per_photo mgr_a q_a 0 4 None [] (snd o) r res_a).
  - vm_compute. reflexivity.
  - vm_compute. reflexivity.
Defined.

(** X5: on an index that is not in ['full_image'] mode, a selfie search
    whose selfie yields the embedding [e] and a registered-person search
    with [e] give the same outcome: the same [success], [matches] and
    [total_photos], or the same exception. *)
Theorem selfie_and_registered_search_agree (pv : Provider) (m : Manager) (ix : Index)
    (s : string) (e : Emb) (thr : Q) (k : nat) (person_name : option string)
    (tr : list Event) :
  index m = Some ix -> index_mode m <> "full_image"%string -> s <> ""%string ->
  extract_single_face_embedding pv s = Some e ->
  result_view (fst (find_photos pv m (Some s) None thr k tr))
  = result_view (fst (find_photos_by_embedding m e thr k person_name tr)).
Proof.
  intros Hix Hmode Hs He.
  apply String.eqb_neq in Hmode. apply String.eqb_neq in Hs.
  unfold find_photos, find_photos_by_embedding. rewrite Hix.
  unfold truthy, str_or. rewrite Hs. simpl. rewrite He.
  unfold find_photos_tail, bind, emit, lift, ret. simpl.
  destruct (search_with_threshold m e thr k) as [[|h ms]|ex]; simpl; try reflexivity.
  rewrite Hmode. destruct (group_faces (h :: ms)); reflexivity.
Qed.

Lemma selfie_and_registered_search_agree_witness :
  result_view (fst (find_photos pv_a mgr_a (Some "me.jpg"%string) None 0 4 []))
  = result_view (fst (find_photos_by_embedding mgr_a q_a 0 4 (Some "Ann"%string) [])).
Proof.
  apply (selfie_and_registered_search_agree pv_a mgr_a ix_a "me.jpg" q_a 0 4
           (Some "Ann"%string) []).
  - reflexivity.
  - vm_compute. discriminate.
  - discriminate.
  - reflexivity.
Defined.

Lemma full_image_photos_facts (ms : list MatchResult) (ps : list PhotoInfo) :
  full_image_photos ms = Ok ps ->
  map max_similarity ps = map similarity ms /\
  Forall (fun p => num_matches p = 1%nat /\ pi_similarity p = Some (max_similarity p) /\
                   avg_similarity p = max_similarity p /\ pi_faces p = None) ps.
Proof.
  revert ps; induction ms as [|h ms IH]; intros ps H; simpl in H.
  - injection H as <-. split; [reflexivity | constructor].
  - destruct (mr_metadata h) as [md|]; [|discriminate].
    destruct (full_image_photos ms) as [rest|e]; simpl in H; [|discriminate].
    injection H as <-. destruct (IH rest eq_refl) as [A B].
    split; [simpl; f_equal; exact A|].
    constructor; [|exact B]. simpl. repeat split.
Qed.

(** X6: a text query on an index in ['full_image'] mode returns one photo
    per threshold-passing match: [total_photos] is the number of matches,
    every photo has [num_matches = 1], [similarity], [max_similarity] and
    [avg_similarity] equal and no [faces], and the photos' scores are the
    matches' similarities. *)
Theorem full_image_mode_one_photo_per_match (pv : Provider) (m : Manager) (t : string)
    (thr : Q) (k : nat) (tr tr' : list Event) (r : PyResult) (ms : list MatchResult) :
  t <> ""%string -> index_mode m = "full_image"%string ->
  search_with_threshold m (encode_text pv t) thr k = Ok ms ->
  find_photos pv m None (Some t) thr k tr = (Ok r, tr') ->
  total_photos r = length ms /\
  Permutation (map max_similarity (matches r)) (map similarity ms) /\
  Forall (fun p => num_matches p = 1%nat /\ pi_similarity p = Some (max_similarity p) /\
                   avg_similarity p = max_similarity p /\ pi_faces p = None) (matches r).
Proof.
  intros Ht Hmode Hs H. apply String.eqb_neq in Ht.
  unfold find_photos, truthy, str_or in H. rewrite Ht in H. simpl in H.
  unfold find_photos_tail, bind, emit, lift, ret in H. simpl in H. rewrite Hs in H.
  destruct ms as [|h ms'].
  - injection H as <- _. simpl. split; [reflexivity|]. split; constructor.
  - rewrite Hmode, String.eqb_refl in H.
    destruct (full_image_photos (h :: ms')) as [ps|e] eqn:Hf; [|discriminate].
    injection H as <- _. cbn [total_photos matches].
    destruct (full_image_photos_facts _ _ Hf) as [A B].
    assert (Hp : Permutation (sort_desc_by max_similarity ps) ps) by apply sort_by_perm.
    split; [|split].
    + rewrite (Permutation_length Hp), <- (length_map max_similarity ps), A, length_map.
      reflexivity.
    + rewrite <- A. apply Permutation_map, Hp.
    + rewrite Forall_forall in *. intros p Hin. apply B.
      eapply Permutation_in; [exact Hp | exact Hin].
Qed.

Lemma full_image_mode_one_photo_per_match_witness :
  let mf := {| embedding_dim := 2; index := Some ix_a;
               metadata := map (fun md => {| item_id := item_id md; image_path := image_path md;
                                             bbox := None; det_score := None;
                                             mode := Some "full_image"%string |})
                             (metadata mgr_a) |} in
  let o := find_photos pv_a mf None (Some "a dog"%string) 0 4 [] in
  let r := out_or (fst o) empty_result in
  let ms := out_or (search_with_threshold mf q_a 0 4) [] in
  total_photos r = length ms /\
  Permutation (map max_similarity (matches r)) (map similarity ms) /\
  Forall (fun p => num_matches p = 1%nat /\ pi_similarity p = Some (max_similarity p) /\
                   avg_similarity p = max_similarity p /\ pi_faces p = None) (matches r).
Proof.
  intros mf o r ms.
  apply (full_image_mode_one_photo_per_match pv_a mf "a dog" 0 4 [] (snd o) r ms).
  - discriminate.
  - reflexivity.
  - vm_compute. reflexivity.
  - vm_compute. reflexivity.
Defined.

(** X7: the semantic-search tab lets an index with an empty metadata list
    through its mode check; a text query with at least one
    threshold-passing match then raises [TypeError] from the face-mode
    grouping, since every match has no metadata. *)
Theorem semantic_search_without_metadata_raises (pv : Provider) (m : Manager) (ix : Index)
    (query : string) (thr : Q) (tr : list Event) (h : MatchResult)
    (rest : list MatchResult) :
  metadata m = [] -> index m = Some ix -> query <> ""%string ->
  search_with_threshold m (encode_text pv query) thr 100 = Ok (h :: rest) ->
  fst (semantic_search pv m query thr tr) = Raise TypeError.
Proof.
  intros Hmd Hix Hq Hs.
  destruct (swt_res_facts m ix _ thr 100 _ Hix Hs) as [_ [_ [_ Hall]]].
  inversion Hall as [|? ? [[Hid _] [_ Hnone]] _]; subst.
  assert (Hh : mr_metadata h = None) by (apply Hnone; rewrite Hmd; simpl; lia).
  apply String.eqb_neq in Hq.
  unfold semantic_search. rewrite Hmd.
  unfold find_photos, truthy, str_or. rewrite Hq. simpl.
  unfold find_photos_tail, bind, emit, lift, ret. simpl. rewrite Hs.
  unfold index_mode. rewrite Hmd. simpl.
  unfold group_faces. simpl. rewrite Hh. reflexivity.
Qed.

Lemma semantic_search_without_metadata_raises_witness :
  let m0 := {| embedding_dim := 2; index := Some ix_a; metadata := [] |} in
  fst (semantic_search pv_a m0 "a dog" (1#2) []) = Raise TypeError.
Proof.
  intros m0.
  destruct (out_or (search_with_threshold m0 q_a (1#2) 100) []) as [|h rest] eqn:E.
  - vm_compute in E. discriminate.
  - apply (semantic_search_without_metadata_raises pv_a m0 ix_a "a dog" (1#2) [] h rest).
    + reflexivity.
    + reflexivity.
    + discriminate.
    + simpl. rewrite <- E. vm_compute. reflexivity.
Defined.

(** ** The profile store *)

Lemma find_ci_in (lower : string -> string) (q : string) (d : list (string * Profile))
    (k : string) (p : Profile) :
  find_profile_ci lower q d = Some (k, p) -> In (k, p) d.
Proof.
  induction d as [|[k0 p0] d IH]; simpl; [discriminate|].
  destruct (String.eqb (lower k0) (lower q)).
  - intros H. injection H as <- <-. left. reflexivity.
  - intros H. right. apply IH, H.
Qed.

Lemma find_ci_none (lower : string -> string) (q : string) (d : list (string * Profile)) :
  find_profile_ci lower q d = None -> forall k p, In (k, p) d -> lower k <> lower q.
Proof.
  induction d as [|[k0 p0] d IH]; simpl; [intros _ k p []|].
  destruct (String.eqb_spec (lower k0) (lower q)) as [_|Hne]; [discriminate|].
  intros H k p [E|Hin]; [injection E as <- <-; exact Hne | exact (IH H k p Hin)].
Qed.

Lemma find_ci_update (lower : string -> string) (q n : string) (pr : Profile)
    (d : list (string * Profile)) :
  lower n = lower q ->
  find_profile_ci lower q (dict_update n (fun _ => pr) d) =
  match find_profile_ci lower q d with
  | Some (k, p) => if String.eqb k n then Some (n, pr) else Some (k, p)
  | None => None
  end.
Proof.
  intros Hl. induction d as [|[k0 p0] d IH]; simpl; [reflexivity|].
  destruct (String.eqb_spec k0 n) as [->|Hne]; simpl.
  - rewrite Hl, String.eqb_refl, String.eqb_refl. reflexivity.
  - destruct (String.eqb (lower k0) (lower q)).
    + apply String.eqb_neq in Hne. rewrite Hne. reflexivity.
    + exact IH.
Qed.

Lemma find_ci_app (lower : string -> string) (q n : string) (pr : Profile)
    (d : list (string * Profile)) :
  find_profile_ci lower q (d ++ [(n, pr)]) =
  match find_profile_ci lower q d with
  | Some x => Some x
  | None => if String.eqb (lower n) (lower q) then Some (n, pr) else None
  end.
Proof.
  induction d as [|[k0 p0] d IH]; simpl; [reflexivity|].
  destruct (String.eqb (lower k0) (lower q)); [reflexivity | exact IH].
Qed.

Lemma find_ci_set (lower : string -> string) (q n : string) (pr : Profile)
    (d : list (string * Profile)) :
  lower n = lower q ->
  find_profile_ci lower q (dict_set n pr d) =
  match find_profile_ci lower q d with
  | Some (k, p) => if String.eqb k n then Some (n, pr) else Some (k, p)
  | None => Some (n, pr)
  end.
Proof.
  intros Hl. unfold dict_set. destruct (dict_mem n d) eqn:Em.
  - rewrite find_ci_update by exact Hl.
    destruct (find_profile_ci lower q d) as [[k p]|] eqn:Ef; [reflexivity|].
    exfalso. apply dict_mem_keys in Em. apply in_map_iff in Em as [[k p] [Hk Hin]].
    simpl in Hk. subst k. exact (find_ci_none lower q d Ef n p Hin Hl).
  - rewrite find_ci_app, Hl, String.eqb_refl.
    destruct (find_profile_ci lower q d) as [[k p]|] eqn:Ef; [|reflexivity].
    destruct (String.eqb_spec k n) as [->|_]; [|reflexivity].
    exfalso. apply find_ci_in in Ef. apply (in_map fst) in Ef. simpl in Ef.
    apply dict_mem_keys in Ef. congruence.
Qed.

Lemma find_embedding_profile (lower : string -> string) (q : string)
    (d : list (string * Profile)) :
  find_embedding_ci lower q d =
  option_map (fun sp => pr_embedding (snd sp)) (find_profile_ci lower q d).
Proof.
  induction d as [|[k0 p0] d IH]; simpl; [reflexivity|].
  destruct (String.eqb (lower k0) (lower q)); [reflexivity | exact IH].
Qed.

Lemma dict_set_nodup {V} (k : string) (v : V) (d : list (string * V)) :
  NoDup (dict_keys d) -> NoDup (dict_keys (dict_set k v d)).
Proof.
  intros H. rewrite dict_set_keys. destruct (dict_mem k d) eqn:E; [exact H|].
  apply NoDup_app; [exact H | repeat constructor; simpl; tauto|].
  intros x Hx [<-|[]]. apply dict_mem_keys in Hx. congruence.
Qed.

Lemma dict_of_pairs_fold {V} (k : string) (d acc : list (string * V)) :
  dict_get k (fold_left (fun acc kv => dict_set (fst kv) (snd kv) acc) d acc) =
  match dict_get k (rev d) with Some v => Some v | None => dict_get k acc end.
Proof.
  revert acc; induction d as [|[k0 v0] d IH]; intros acc; simpl; [reflexivity|].
  rewrite IH, dict_get_app_one.
  destruct (dict_get k (rev d)) as [v|]; [reflexivity|].
  destruct (String.eqb_spec k0 k) as [->|Hne].
  - apply dict_set_get.
  - apply dict_set_get_other. intros C. apply Hne. symmetry. exact C.
Qed.

Lemma dict_of_pairs_nodup {V} (d acc : list (string * V)) :
  NoDup (dict_keys acc) ->
  NoDup (dict_keys (fold_left (fun acc kv => dict_set (fst kv) (snd kv) acc) d acc)).
Proof.
  revert acc; induction d as [|[k0 v0] d IH]; intros acc H; simpl; [exact H|].
  apply IH, dict_set_nodup, H.
Qed.

Lemma dict_of_pairs_id {V} (d acc : list (string * V)) :
  NoDup (map fst (acc ++ d)) ->
  fold_left (fun acc kv => dict_set (fst kv) (snd kv) acc) d acc = acc ++ d.
Proof.
  revert acc; induction d as [|[k0 v0] d IH]; intros acc H; cbn [fold_left fst snd].
  - rewrite app_nil_r. reflexivity.
  - assert (Hm : dict_mem k0 acc = false).
    { destruct (dict_mem k0 acc) eqn:E; [|reflexivity]. exfalso.
      apply dict_mem_keys in E. rewrite map_app in H. simpl in H.
      apply NoDup_remove_2 in H. apply H, in_or_app. left. exact E. }
    replace (dict_set k0 v0 acc) with (acc ++ [(k0, v0)])
      by (unfold dict_set; rewrite Hm; reflexivity).
    rewrite IH; [rewrite <- app_assoc; reflexivity|].
    rewrite <- app_assoc. exact H.
Qed.

Lemma makedirs_ok (d : string) (fs : FS) :
  d <> ""%string -> exists fs1, makedirs d fs = Ok fs1 /\ fs_files fs1 = fs_files fs.
Proof.
  intros Hd. apply String.eqb_neq in Hd. unfold makedirs. rewrite Hd.
  destruct (existsb (String.eqb d) (fs_dirs fs)); eexists; split; reflexivity.
Qed.

Lemma writable_dirname (fs : FS) (p : string) :
  writable_path fs p = true -> dirname p <> ""%string.
Proof.
  intros H C. unfold writable_path in H. cbv zeta in H. rewrite C in H. discriminate H.
Qed.

(** On a writable path, [makedirs (dirname p)] changes nothing, as
    [os.makedirs(..., exist_ok=True)] on an existing directory. *)
Lemma writable_makedirs (fs : FS) (p : string) :
  writable_path fs p = true -> makedirs (dirname p) fs = Ok fs.
Proof.
  intros H. unfold writable_path in H. cbv zeta in H.
  apply andb_prop in H as [H _]. apply andb_prop in H as [H _].
  apply andb_prop in H as [H _]. apply andb_prop in H as [H1 H2].
  unfold makedirs. apply negb_true_iff in H1. rewrite H1, H2. reflexivity.
Qed.

Lemma save_profiles_ok (pm : PersonManager) (fs : FS) :
  dirname (profiles_path pm) <> ""%string ->
  exists fs1, fs_files fs1 = fs_files fs /\
    save_profiles (pm, fs) =
    (Ok tt, (pm, write_file (profiles_path pm) (FProfilesJson (profiles pm)) fs1)).
Proof.
  intros Hd. destruct (makedirs_ok _ fs Hd) as [fs1 [E F]].
  exists fs1. split; [exact F|].
  unfold save_profiles, bind, get, lift, put. simpl. rewrite E. reflexivity.
Qed.

Lemma save_profiles_bare (pm : PersonManager) (fs : FS) :
  dirname (profiles_path pm) = ""%string ->
  save_profiles (pm, fs) = (Raise FileNotFoundError, (pm, fs)).
Proof.
  intros Hd. unfold save_profiles, bind, get, lift, put, makedirs. simpl.
  rewrite Hd. reflexivity.
Qed.

Lemma init_after_write (p : string) (d : list (string * Profile)) (fs1 : FS) :
  NoDup (map fst d) ->
  init_person_manager p (write_file p (FProfilesJson d) fs1) =
  Ok {| profiles_path := p; profiles := d |}.
Proof.
  intros H. unfold init_person_manager, load_profiles, bind, get, put. simpl.
  unfold path_exists, dict_mem. simpl. rewrite dict_set_get. simpl.
  unfold dict_of_pairs. rewrite (dict_of_pairs_id d []); [reflexivity | exact H].
Qed.

Lemma dict_get_del_other {V} (k name : string) (d : list (string * V)) :
  k <> name -> dict_get k (dict_del name d) = dict_get k d.
Proof.
  intros Hne. unfold dict_del.
  induction d as [|[k0 v0] d IH]; simpl; [reflexivity|].
  destruct (String.eqb_spec k0 name) as [->|Hne0]; simpl.
  - destruct (String.eqb_spec name k) as [->|_]; [contradiction | exact IH].
  - destruct (String.eqb k0 k); [reflexivity | exact IH].
Qed.

Lemma dict_del_notin {V} (name : string) (d : list (string * V)) :
  ~ In name (dict_keys (dict_del name d)).
Proof.
  unfold dict_keys, dict_del. intros H.
  apply in_map_iff in H as [[k v] [Hk Hin]]. simpl in Hk. subst k.
  apply filter_In in Hin as [_ Hb]. simpl in Hb. rewrite String.eqb_refl in Hb.
  discriminate.
Qed.

Lemma nodup_pm_ab : NoDup (dict_keys (profiles pm_ab)).
Proof. simpl. repeat constructor; simpl; intuition discriminate. Qed.

(** X8: after a successful [register_person(name, ...)], a
    case-insensitive lookup ([get_profile] or [get_person_embedding]) with a
    name of the same lower-case form returns the new profile under the
    stripped name, unless the store already had an entry under a different
    key with that lower-case form: the first such entry shadows the new
    one. *)
Theorem register_then_lookup (pv : Provider) (lower : string -> string)
    (name selfie_path q : string) (pm : PersonManager) (fs : FS) (e : Emb) :
  strip name <> ""%string -> path_exists fs selfie_path = true ->
  extract_single_face_embedding pv selfie_path = Some e ->
  lower q = lower (strip name) ->
  let pm' := fst (snd (register_person pv name selfie_path (pm, fs))) in
  let pr := {| pr_embedding := e; pr_selfie_path := selfie_path |} in
  get_profile lower pm' q =
    match get_profile lower pm q with
    | Some (k, p) => if String.eqb k (strip name) then Some (strip name, pr) else Some (k, p)
    | None => Some (strip name, pr)
    end /\
  get_person_embedding lower pm' q =
    option_map (fun sp => pr_embedding (snd sp)) (get_profile lower pm' q).
Proof.
  intros Hn Hx He Hq pm' pr.
  unfold get_profile, get_person_embedding. split; [|apply find_embedding_profile].
  unfold pm'. rewrite (register_person_profiles pv name selfie_path pm fs e Hn Hx He).
  apply find_ci_set. symmetry. exact Hq.
Qed.

Lemma register_then_lookup_witness :
  let pm' := fst (snd (register_person pv_a "ann" "ann2.jpg" (pm_ab, fs_selfies))) in
  get_profile ascii_lower pm' "ANN" = Some ("Ann"%string, prof [1; 0] "ann1.jpg") /\
  get_person_embedding ascii_lower pm' "ANN" = Some [1; 0].
Proof.
  intros pm'.
  destruct (register_then_lookup pv_a ascii_lower "ann" "ann2.jpg" "ANN" pm_ab fs_selfies q_a)
    as [A B].
  - discriminate.
  - reflexivity.
  - reflexivity.
  - reflexivity.
  - fold pm' in A, B. rewrite B, A. split; reflexivity.
Defined.

(** X9: [save_profiles] followed by a fresh [PersonManager] on the same
    path gives back the same store: the file holds every profile, in order,
    whenever the path names a file in an existing directory
    ([writable_path]) and the keys are distinct (as in a Python dict). *)
Theorem save_then_load_profiles (pm : PersonManager) (fs : FS) :
  NoDup (dict_keys (profiles pm)) -> writable_path fs (profiles_path pm) = true ->
  exists fs', save_profiles (pm, fs) = (Ok tt, (pm, fs')) /\
              init_person_manager (profiles_path pm) fs' = Ok pm.
Proof.
  intros Hnd Hw.
  destruct (save_profiles_ok pm fs (writable_dirname _ _ Hw)) as [fs1 [_ E]].
  eexists. split; [exact E|]. rewrite init_after_write by exact Hnd.
  destruct pm. reflexivity.
Qed.

Lemma save_then_load_profiles_witness :
  NoDup (dict_keys (profiles pm_ab)) /\ writable_path fs_selfies (profiles_path pm_ab) = true /\
  exists fs', save_profiles (pm_ab, fs_selfies) = (Ok tt, (pm_ab, fs')) /\
              init_person_manager (profiles_path pm_ab) fs' = Ok pm_ab.
Proof.
  assert (Hw : writable_path fs_selfies (profiles_path pm_ab) = true)
    by (vm_compute; reflexivity).
  split; [exact nodup_pm_ab|]. split; [exact Hw|].
  apply (save_then_load_profiles pm_ab fs_selfies nodup_pm_ab Hw).
Defined.

(** X10: when the profile path names a file in an existing directory
    ([writable_path]), a registration reported as successful has written
    the whole new store: a fresh [PersonManager] on the same path loads
    exactly the in-memory store.  A registration reported as failed has not
    touched the file system. *)
Theorem registration_persists_or_leaves_disk (pv : Provider) (name selfie_path : string)
    (pm pm' : PersonManager) (fs fs' : FS) (res : RegResult) :
  NoDup (dict_keys (profiles pm)) -> writable_path fs (profiles_path pm) = true ->
  register_person pv name selfie_path (pm, fs) = (Ok res, (pm', fs')) ->
  (reg_success res = true -> init_person_manager (profiles_path pm) fs' = Ok pm') /\
  (reg_success res = false -> fs' = fs).
Proof.
  intros Hnd _ H. unfold register_person in H.
  destruct (String.eqb (strip name) "").
  { unfold ret in H. injection H as <- _ <-. split; [discriminate | reflexivity]. }
  unfold bind, get, put, ret in H. simpl in H.
  destruct (path_exists fs selfie_path); simpl in H.
  2: { injection H as <- _ <-. split; [discriminate | reflexivity]. }
  destruct (extract_single_face_embedding pv selfie_path) as [e|]; simpl in H.
  2: { injection H as <- _ <-. split; [discriminate | reflexivity]. }
  unfold save_profiles, bind, get, lift, put in H. simpl in H.
  destruct (makedirs (dirname (profiles_path pm)) fs) as [fs1|ex]; simpl in H.
  - injection H as <- <- <-. split; [|discriminate]. intros _.
    apply init_after_write, dict_set_nodup, Hnd.
  - injection H as <- _ <-. split; [discriminate | reflexivity].
Qed.

Lemma registration_persists_or_leaves_disk_witness :
  let o := register_person pv_a "Cy" "ann1.jpg" (pm_ab, fs_selfies) in
  reg_success (out_or (fst o) (reg_fail "")) = true /\
  init_person_manager (profiles_path pm_ab) (snd (snd o)) = Ok (fst (snd o)).
Proof.
  intros o.
  destruct (registration_persists_or_leaves_disk pv_a "Cy" "ann1.jpg" pm_ab (fst (snd o))
              fs_selfies (snd (snd o)) (out_or (fst o) (reg_fail "")) nodup_pm_ab)
    as [A _].
  - vm_compute. reflexivity.
  - vm_compute. reflexivity.
  - assert (Hs : reg_success (out_or (fst o) (reg_fail "")) = true) by (vm_compute; reflexivity).
    split; [exact Hs | exact (A Hs)].
Defined.

(** X11: with a profile path whose directory part is empty (a bare file
    name), [os.makedirs('')] raises inside the [try]: [register_person]
    reports "Error processing selfie: ..." with [success] false, yet the
    profile stays registered in memory and nothing is written. *)
Theorem register_bare_path_fails_after_storing (pv : Provider) (name selfie_path : string)
    (pm : PersonManager) (fs : FS) (e : Emb) :
  strip name <> ""%string -> path_exists fs selfie_path = true ->
  extract_single_face_embedding pv selfie_path = Some e ->
  dirname (profiles_path pm) = ""%string ->
  register_person pv name selfie_path (pm, fs) =
  (Ok (reg_fail (String.append "Error processing selfie: " (exn_str FileNotFoundError))),
   ({| profiles_path := profiles_path pm;
       profiles := dict_set (strip name) {| pr_embedding := e; pr_selfie_path := selfie_path |}
                     (profiles pm) |}, fs)).
Proof.
  intros Hn Hx He Hd. unfold register_person.
  apply String.eqb_neq in Hn. rewrite Hn.
  unfold bind, get, put. simpl. rewrite Hx, He. simpl.
  rewrite save_profiles_bare by exact Hd. reflexivity.
Qed.

Lemma register_bare_path_fails_after_storing_witness :
  register_person pv_a "Ann" "ann1.jpg" (pm_bare, fs_selfies) =
  (Ok (reg_fail "Error processing selfie: FileNotFoundError"),
   ({| profiles_path := "person_profiles.json";
       profiles := [("Ann"%string, prof q_a "ann1.jpg")] |}, fs_selfies)).
Proof.
  apply (register_bare_path_fails_after_storing pv_a "Ann" "ann1.jpg" pm_bare fs_selfies q_a).
  - discriminate.
  - reflexivity.
  - reflexivity.
  - vm_compute. reflexivity.
Defined.

(** X12: [remove_person] matches the name exactly (case-sensitively): on a
    name that is not a key it returns [False] and changes neither the store
    nor the file system. *)
Theorem remove_person_absent (name : string) (pm : PersonManager) (fs : FS) :
  ~ In name (dict_keys (profiles pm)) ->
  remove_person name (pm, fs) = (Ok false, (pm, fs)).
Proof.
  intros H. unfold remove_person, bind, get, ret. simpl.
  destruct (dict_mem name (profiles pm)) eqn:E; [|reflexivity].
  apply dict_mem_keys in E. contradiction.
Qed.

Lemma remove_person_absent_witness :
  ~ In "ann"%string (dict_keys (profiles pm_ab)) /\
  remove_person "ann" (pm_ab, fs_selfies) = (Ok false, (pm_ab, fs_selfies)).
Proof.
  assert (H : ~ In "ann"%string (dict_keys (profiles pm_ab)))
    by (simpl; intuition discriminate).
  split; [exact H | apply (remove_person_absent "ann" pm_ab fs_selfies H)].
Defined.

(** X13: [remove_person] on a registered name returns [True]; afterwards
    the name is no longer a key, every other profile is unchanged, and the
    file holds the new store (a fresh [PersonManager] loads it), when the
    path names a file in an existing directory ([writable_path]). *)
Theorem remove_person_present (name : string) (pm : PersonManager) (fs : FS) :
  In name (dict_keys (profiles pm)) -> NoDup (dict_keys (profiles pm)) ->
  writable_path fs (profiles_path pm) = true ->
  let pm' := {| profiles_path := profiles_path pm;
                profiles := dict_del name (profiles pm) |} in
  exists fs', remove_person name (pm, fs) = (Ok true, (pm', fs')) /\
    ~ In name (dict_keys (profiles pm')) /\
    (forall k, k <> name -> dict_get k (profiles pm') = dict_get k (profiles pm)) /\
    init_person_manager (profiles_path pm) fs' = Ok pm'.
Proof.
  intros Hin Hnd Hw pm'.
  destruct (save_profiles_ok pm' fs (writable_dirname _ _ Hw)) as [fs1 [_ E]].
  eexists. split; [|split; [|split]].
  - unfold remove_person, bind, get, put, ret. simpl.
    apply dict_mem_keys in Hin. rewrite Hin. fold pm'. rewrite E. reflexivity.
  - apply dict_del_notin.
  - intros k Hk. apply dict_get_del_other, Hk.
  - apply init_after_write. apply NoDup_map_filter, Hnd.
Qed.

Lemma remove_person_present_witness :
  In "Ann"%string (dict_keys (profiles pm_ab)) /\
  exists fs', remove_person "Ann" (pm_ab, fs_selfies) =
    (Ok true, ({| profiles_path := profiles_path pm_ab;
                  profiles := [("Bob"%string, prof [0; 1] "bob.jpg")] |}, fs')) /\
    init_person_manager (profiles_path pm_ab) fs' =
    Ok {| profiles_path := profiles_path pm_ab;
          profiles := [("Bob"%string, prof [0; 1] "bob.jpg")] |}.
Proof.
  assert (Hin : In "Ann"%string (dict_keys (profiles pm_ab))) by (left; reflexivity).
  split; [exact Hin|].
  assert (Hw : writable_path fs_selfies (profiles_path pm_ab) = true)
    by (vm_compute; reflexivity).
  destruct (remove_person_present "Ann" pm_ab fs_selfies Hin nodup_pm_ab Hw)
    as [fs' [A [_ [_ B]]]].
  exists fs'. split; [exact A | exact B].
Defined.

(** X14: with a bare file name as profile path, [remove_person] on a
    registered name deletes it from memory and then raises
    [FileNotFoundError] from [save_profiles] (there is no [try]); the file
    system is unchanged. *)
Theorem remove_person_bare_path_raises (name : string) (pm : PersonManager) (fs : FS) :
  In name (dict_keys (profiles pm)) -> dirname (profiles_path pm) = ""%string ->
  remove_person name (pm, fs) =
  (Raise FileNotFoundError,
   ({| profiles_path := profiles_path pm; profiles := dict_del name (profiles pm) |}, fs)).
Proof.
  intros Hin Hd. unfold remove_person, bind, get, put, ret. simpl.
  apply dict_mem_keys in Hin. rewrite Hin.
  rewrite save_profiles_bare by exact Hd. reflexivity.
Qed.

Lemma remove_person_bare_path_raises_witness :
  remove_person "Ann" ({| profiles_path := "person_profiles.json";
                          profiles := profiles pm_ab |}, fs_selfies) =
  (Raise FileNotFoundError,
   ({| profiles_path := "person_profiles.json";
       profiles := [("Bob"%string, prof [0; 1] "bob.jpg")] |}, fs_selfies)).
Proof.
  apply (remove_person_bare_path_raises "Ann"
           {| profiles_path := "person_profiles.json"; profiles := profiles pm_ab |}
           fs_selfies).
  - left. reflexivity.
  - vm_compute. reflexivity.
Defined.

Lemma str_before_total (a b : string) : str_before a b = false -> str_before b a = true.
Proof.
  unfold str_before. rewrite (String.compare_antisym b a).
  destruct (String.compare a b); simpl; congruence.
Qed.

(** X15: [get_all_names] returns the registered names, each once, in
    strictly ascending code-point order. *)
Theorem get_all_names_sorted (pm : PersonManager) :
  NoDup (dict_keys (profiles pm)) ->
  Permutation (get_all_names pm) (dict_keys (profiles pm)) /\
  Sorted (fun a b => String.compare a b = Lt) (get_all_names pm).
Proof.
  intros Hnd. unfold get_all_names.
  pose proof (sort_by_perm str_before (dict_keys (profiles pm))) as Hp.
  split; [exact Hp|].
  assert (Hnd' : NoDup (sort_by str_before (dict_keys (profiles pm))))
    by (eapply Permutation_NoDup; [symmetry; exact Hp | exact Hnd]).
  pose proof (sort_by_sorted str_before str_before_total (dict_keys (profiles pm))) as Hs.
  revert Hnd' Hs. generalize (sort_by str_before (dict_keys (profiles pm))) as l.
  intros l Hnd' Hs. induction Hs as [|a l Hs IH Hhd]; constructor.
  - apply IH. inversion Hnd'; assumption.
  - destruct Hhd as [|b l' Hab]; constructor.
    inversion Hnd' as [|? ? Hni _]; subst.
    unfold str_before in Hab. destruct (String.compare a b) eqn:E; try discriminate.
    + apply String.compare_eq_iff in E. subst b. exfalso. apply Hni. left. reflexivity.
    + reflexivity.
Qed.

Lemma get_all_names_sorted_witness :
  let pm := {| profiles_path := "p/profiles.json";
               profiles := [("bob"%string, prof [0; 1] "b.jpg");
                            ("Ann"%string, prof [1; 0] "a.jpg");
                            ("ann"%string, prof [1; 1] "c.jpg")] |} in
  get_all_names pm = ["Ann"; "ann"; "bob"]%string /\
  Permutation (get_all_names pm) (dict_keys (profiles pm)) /\
  Sorted (fun a b => String.compare a b = Lt) (get_all_names pm).
Proof.
  intros pm. split; [vm_compute; reflexivity|].
  apply get_all_names_sorted. simpl. repeat constructor; simpl; intuition discriminate.
Defined.

(** X17: a [PersonManager] that loads successfully keeps its path and has
    distinct names; a name's profile is the last one the JSON object gives
    it, and the store is empty when there is no file at the path. *)
Theorem init_person_manager_loads (p : string) (fs : FS) (pm : PersonManager) :
  init_person_manager p fs = Ok pm ->
  profiles_path pm = p /\ NoDup (dict_keys (profiles pm)) /\
  forall k, dict_get k (profiles pm) =
    match dict_get p (fs_files fs) with
    | Some (FProfilesJson d) => dict_get k (rev d)
    | _ => None
    end.
Proof.
  unfold init_person_manager, load_profiles, bind, get, put, raise. simpl.
  destruct (path_exists fs p) eqn:Ex.
  - destruct (dict_get p (fs_files fs)) as [[ix|md|d|]|] eqn:E; simpl;
      try discriminate.
    intros H. injection H as <-. simpl. split; [reflexivity|]. split.
    + apply dict_of_pairs_nodup. constructor.
    + intros k. unfold dict_of_pairs. rewrite dict_of_pairs_fold.
      destruct (dict_get k (rev d)); reflexivity.
  - intros H. injection H as <-. simpl. split; [reflexivity|]. split; [constructor|].
    unfold path_exists, dict_mem in Ex.
    destruct (dict_get p (fs_files fs)); [discriminate | reflexivity].
Qed.

Lemma init_person_manager_loads_witness :
  let fs := {| fs_files := [("pr.json"%string,
                              FProfilesJson [("Ann"%string, prof [1; 0] "a1.jpg");
                                             ("Bob"%string, prof [0; 1] "b.jpg");
                                             ("Ann"%string, prof [1; 1] "a2.jpg")])];
               fs_dirs := [] |} in
  exists pm, init_person_manager "pr.json" fs = Ok pm /\
    profiles_path pm = "pr.json"%string /\ NoDup (dict_keys (profiles pm)) /\
    dict_get "Ann" (profiles pm) = Some (prof [1; 1] "a2.jpg").
Proof.
  intros fs. eexists. split; [vm_compute; reflexivity|].
  destruct (init_person_manager_loads "pr.json" fs
              (out_or (init_person_manager "pr.json" fs) pm_bare)) as [A [B C]].
  - vm_compute. reflexivity.
  - split; [exact A|]. split; [exact B|]. rewrite C. reflexivity.
Defined.

(** ** Index and metadata files *)

Lemma path_exists_get (fs : FS) (p : string) (c : FileContent) :
  dict_get p (fs_files fs) = Some c -> path_exists fs p = true.
Proof. intros H. unfold path_exists, dict_mem. rewrite H. reflexivity. Qed.

Lemma save_index_ok (m : Manager) (ix : Index) (fs : FS) (p : string) :
  index m = Some ix -> dirname p <> ""%string ->
  exists fs1, fs_files fs1 = fs_files fs /\
    save_index p (m, fs) = (Ok tt, (m, write_file p (FIndex ix) fs1)).
Proof.
  intros Hix Hd. destruct (makedirs_ok _ fs Hd) as [fs1 [E F]].
  exists fs1. split; [exact F|].
  unfold save_index, bind, get, lift, put. simpl. rewrite Hix, E. reflexivity.
Qed.

Lemma save_metadata_ok (m : Manager) (md : list Meta) (fs : FS) (p : string) :
  dirname p <> ""%string ->
  exists fs1, fs_files fs1 = fs_files fs /\
    save_metadata md p (m, fs) = (Ok tt, (set_metadata m md, write_file p (FMetaJson md) fs1)).
Proof.
  intros Hd. destruct (makedirs_ok _ fs Hd) as [fs1 [E F]].
  exists fs1. split; [exact F|].
  unfold save_metadata, bind, get, lift, put. simpl. rewrite E. reflexivity.
Qed.

Lemma load_index_file (m : Manager) (fs : FS) (p : string) (ix : Index) :
  dict_get p (fs_files fs) = Some (FIndex ix) ->
  load_index p (m, fs) = (Ok tt, (set_index m (Some ix), fs)).
Proof.
  intros H. unfold load_index, bind, get, lift, put. simpl.
  rewrite (path_exists_get fs p _ H). simpl. unfold read_index. rewrite H. reflexivity.
Qed.

Lemma load_metadata_file (m : Manager) (fs : FS) (p : string) (md : list Meta) :
  dict_get p (fs_files fs) = Some (FMetaJson md) ->
  load_metadata p (m, fs) = (Ok md, (set_metadata m md, fs)).
Proof.
  intros H. unfold load_metadata, bind, get, lift, put, ret. simpl.
  rewrite (path_exists_get fs p _ H). simpl. unfold read_meta_json. rewrite H. reflexivity.
Qed.

Lemma dict_get_write_other (p q : string) (c : FileContent) (fs : FS) :
  q <> p -> dict_get q (fs_files (write_file p c fs)) = dict_get q (fs_files fs).
Proof. intros H. unfold write_file. simpl. apply dict_set_get_other, H. Qed.

(** X18: when [p] names a file in an existing directory
    ([writable_path]), [save_index] followed by [load_index] on [p], into
    any manager, gives back the saved index; no other file changes. *)
Theorem save_then_load_index (m m' : Manager) (ix : Index) (fs : FS) (p : string) :
  index m = Some ix -> writable_path fs p = true ->
  exists fs', save_index p (m, fs) = (Ok tt, (m, fs')) /\
    load_index p (m', fs') = (Ok tt, (set_index m' (Some ix), fs')) /\
    (forall q, q <> p -> dict_get q (fs_files fs') = dict_get q (fs_files fs)).
Proof.
  intros Hix Hw. destruct (save_index_ok m ix fs p Hix (writable_dirname _ _ Hw)) as [fs1 [F E]].
  eexists. split; [exact E|]. split.
  - apply load_index_file. unfold write_file. simpl. apply dict_set_get.
  - intros q Hq. rewrite dict_get_write_other by exact Hq. rewrite F. reflexivity.
Qed.

Lemma save_then_load_index_witness :
  index mgr_a = Some ix_a /\ writable_path fs_selfies "data/embeddings/faiss.index" = true /\
  exists fs', save_index "data/embeddings/faiss.index" (mgr_a, fs_selfies)
              = (Ok tt, (mgr_a, fs')) /\
    load_index "data/embeddings/faiss.index" (new_manager 512, fs') =
      (Ok tt, (set_index (new_manager 512) (Some ix_a), fs')) /\
    (forall q, q <> "data/embeddings/faiss.index"%string ->
       dict_get q (fs_files fs') = dict_get q (fs_files fs_selfies)).
Proof.
  assert (Hw : writable_path fs_selfies "data/embeddings/faiss.index" = true)
    by (vm_compute; reflexivity).
  split; [reflexivity|]. split; [exact Hw|].
  apply (save_then_load_index mgr_a (new_manager 512) ix_a fs_selfies _ eq_refl Hw).
Defined.

(** X19: when [p] names a file in an existing directory
    ([writable_path]), [save_metadata] followed by [load_metadata] on [p],
    into any manager, gives back the saved list, which both managers then
    hold; no other file changes. *)
Theorem save_then_load_metadata (m m' : Manager) (md : list Meta) (fs : FS) (p : string) :
  writable_path fs p = true ->
  exists fs', save_metadata md p (m, fs) = (Ok tt, (set_metadata m md, fs')) /\
    load_metadata p (m', fs') = (Ok md, (set_metadata m' md, fs')) /\
    (forall q, q <> p -> dict_get q (fs_files fs') = dict_get q (fs_files fs)).
Proof.
  intros Hw. destruct (save_metadata_ok m md fs p (writable_dirname _ _ Hw)) as [fs1 [F E]].
  eexists. split; [exact E|]. split.
  - apply load_metadata_file. unfold write_file. simpl. apply dict_set_get.
  - intros q Hq. rewrite dict_get_write_other by exact Hq. rewrite F. reflexivity.
Qed.

Lemma save_then_load_metadata_witness :
  writable_path fs_selfies "data/embeddings/metadata.json" = true /\
  exists fs', save_metadata (metadata mgr_a) "data/embeddings/metadata.json"
                (new_manager 512, fs_selfies) =
      (Ok tt, (set_metadata (new_manager 512) (metadata mgr_a), fs')) /\
    load_metadata "data/embeddings/metadata.json" (mgr_mis, fs') =
      (Ok (metadata mgr_a), (set_metadata mgr_mis (metadata mgr_a), fs')) /\
    (forall q, q <> "data/embeddings/metadata.json"%string ->
       dict_get q (fs_files fs') = dict_get q (fs_files fs_selfies)).
Proof.
  assert (Hw : writable_path fs_selfies "data/embeddings/metadata.json" = true)
    by (vm_compute; reflexivity).
  split; [exact Hw|].
  apply (save_then_load_metadata (new_manager 512) mgr_mis (metadata mgr_a) fs_selfies _ Hw).
Defined.

(** X20: saving to a bare file name fails on [os.makedirs('')]:
    [save_index] raises [FileNotFoundError] and changes nothing, while
    [save_metadata] raises it after [self.metadata] has already been set to
    the new list. *)
Theorem save_to_bare_name_raises (m : Manager) (ix : Index) (md : list Meta) (fs : FS)
    (p : string) :
  index m = Some ix -> dirname p = ""%string ->
  save_index p (m, fs) = (Raise FileNotFoundError, (m, fs)) /\
  save_metadata md p (m, fs) = (Raise FileNotFoundError, (set_metadata m md, fs)).
Proof.
  intros Hix Hd. split.
  - unfold save_index, bind, get, lift, put, makedirs. simpl. rewrite Hix, Hd. reflexivity.
  - unfold save_metadata, bind, get, lift, put, makedirs. simpl. rewrite Hd. reflexivity.
Qed.

Lemma save_to_bare_name_raises_witness :
  save_index "faiss.index" (mgr_a, fs_empty) = (Raise FileNotFoundError, (mgr_a, fs_empty)) /\
  save_metadata [] "metadata.json" (mgr_a, fs_empty)
    = (Raise FileNotFoundError, (set_metadata mgr_a [], fs_empty)).
Proof.
  destruct (save_to_bare_name_raises mgr_a ix_a [] fs_empty "faiss.index" eq_refl)
    as [A _]; [vm_compute; reflexivity|].
  destruct (save_to_bare_name_raises mgr_a ix_a [] fs_empty "metadata.json" eq_refl)
    as [_ B]; [vm_compute; reflexivity|].
  split; [exact A | exact B].
Defined.

(** ** Paths of the offline pipeline *)

Lemma str_app_assoc (a b c : string) :
  String.append a (String.append b c) = String.append (String.append a b) c.
Proof. induction a as [|x a IH]; simpl; [reflexivity | rewrite IH; reflexivity]. Qed.

Lemma str_app_nil_r (a : string) : String.append a "" = a.
Proof. induction a as [|x a IH]; simpl; [reflexivity | rewrite IH; reflexivity]. Qed.

Lemma str_app_cancel_l (a b1 b2 : string) :
  String.append a b1 = String.append a b2 -> b1 = b2.
Proof. induction a as [|x a IH]; simpl; [tauto|]. intros H. injection H. exact IH. Qed.

Lemma srev_app (a b : string) : srev (String.append a b) = String.append (srev b) (srev a).
Proof.
  induction a as [|x a IH]; simpl.
  - rewrite str_app_nil_r. reflexivity.
  - rewrite IH, str_app_assoc. reflexivity.
Qed.

Lemma srev_involutive (s : string) : srev (srev s) = s.
Proof.
  induction s as [|x s IH]; simpl; [reflexivity|]. rewrite srev_app, IH. reflexivity.
Qed.

Lemma srev_nonempty (s : string) : s <> ""%string -> srev s <> ""%string.
Proof.
  intros H C. apply H. rewrite <- (srev_involutive s), C. reflexivity.
Qed.

Lemma no_slash_app (a b : string) :
  no_slash (String.append a b) = no_slash a && no_slash b.
Proof.
  induction a as [|x a IH]; simpl; [reflexivity|]. rewrite IH. apply andb_assoc.
Qed.

Lemma no_slash_srev (s : string) : no_slash (srev s) = no_slash s.
Proof.
  induction s as [|x s IH]; simpl; [reflexivity|].
  rewrite no_slash_app, IH. simpl. rewrite andb_true_r. apply andb_comm.
Qed.

Lemma all_slashes_app (a b : string) :
  all_slashes (String.append a b) = all_slashes a && all_slashes b.
Proof.
  induction a as [|x a IH]; simpl; [reflexivity|]. rewrite IH. apply andb_assoc.
Qed.

Lemma all_slashes_srev (s : string) : all_slashes (srev s) = all_slashes s.
Proof.
  induction s as [|x s IH]; simpl; [reflexivity|].
  rewrite all_slashes_app, IH. simpl. rewrite andb_true_r. apply andb_comm.
Qed.

Lemma drop_to_slash_app (a b : string) :
  no_slash a = true -> drop_to_slash (String.append a b) = drop_to_slash b.
Proof.
  induction a as [|x a IH]; simpl; [reflexivity|].
  intros H. apply andb_prop in H as [H1 H2]. apply negb_true_iff in H1.
  rewrite H1. apply IH, H2.
Qed.

Lemma drop_to_slash_nonempty (s : string) :
  no_slash s = false -> drop_to_slash s <> ""%string.
Proof.
  induction s as [|x s IH]; simpl; [discriminate|].
  destruct (Ascii.eqb x "/"%char); simpl; [discriminate | exact IH].
Qed.

Lemma drop_slashes_nonempty (s : string) :
  all_slashes s = false -> drop_slashes s <> ""%string.
Proof.
  induction s as [|x s IH]; simpl; [discriminate|].
  destruct (Ascii.eqb x "/"%char); simpl; [exact IH | discriminate].
Qed.

(** [os.path.dirname(a + b)] is not empty when [a] has a slash and [b]
    has none. *)
Lemma dirname_nonempty (a b : string) :
  no_slash a = false -> no_slash b = true -> dirname (String.append a b) <> ""%string.
Proof.
  intros Ha Hb. unfold dirname. rewrite srev_app, drop_to_slash_app by (rewrite no_slash_srev; exact Hb).
  assert (H1 : drop_to_slash (srev a) <> ""%string)
    by (apply drop_to_slash_nonempty; rewrite no_slash_srev; exact Ha).
  set (head := srev (drop_to_slash (srev a))).
  assert (H2 : head <> ""%string) by (apply srev_nonempty, H1).
  destruct (all_slashes head) eqn:E; [exact H2|].
  apply srev_nonempty, drop_slashes_nonempty. rewrite all_slashes_srev. exact E.
Qed.

Lemma substring_one_slash (i : nat) (s : string) :
  substring i 1 s = "/"%string -> no_slash s = false.
Proof.
  revert i; induction s as [|x s IH]; intros i H; [destruct i; discriminate|].
  destruct i as [|i]; simpl in H.
  - injection H as Hx. subst x. reflexivity.
  - simpl. rewrite (IH i H). apply andb_false_r.
Qed.

Lemma ends_with_slash (a : string) : ends_with "/" a = true -> no_slash a = false.
Proof.
  unfold ends_with. intros H. apply andb_prop in H as [_ H].
  apply String.eqb_eq in H. eapply substring_one_slash. exact H.
Qed.

(** [os.path.join(out, name)] for a file name [name] that does not start
    with a slash: a common prefix, then [name]. *)
Lemma path_join_file (out : string) (c : ascii) (rest : string) :
  Ascii.eqb c "/"%char = false ->
  path_join out (String c rest) =
  String.append (if String.eqb out "" || ends_with "/" out then out
                 else String.append out "/") (String c rest).
Proof.
  intros Hc. unfold path_join. rewrite Hc.
  destruct (String.eqb out "" || ends_with "/" out); [reflexivity|].
  apply str_app_assoc.
Qed.

Lemma join_prefix_slash (out : string) :
  out <> ""%string ->
  no_slash (if String.eqb out "" || ends_with "/" out then out
            else String.append out "/") = false.
Proof.
  intros Hout. apply String.eqb_neq in Hout. rewrite Hout. simpl.
  destruct (ends_with "/" out) eqn:E.
  - apply ends_with_slash, E.
  - rewrite no_slash_app. simpl. apply andb_false_r.
Qed.

Lemma output_paths (out : string) :
  out <> ""%string ->
  dirname (path_join out "faiss.index") <> ""%string /\
  dirname (path_join out "metadata.json") <> ""%string /\
  path_join out "faiss.index" <> path_join out "metadata.json".
Proof.
  intros Hout.
  rewrite !path_join_file by reflexivity.
  pose proof (join_prefix_slash out Hout) as Hp.
  split; [|split].
  - apply dirname_nonempty; [exact Hp | reflexivity].
  - apply dirname_nonempty; [exact Hp | reflexivity].
  - intros C. apply str_app_cancel_l in C. discriminate.
Qed.

(** ** The offline indexing loop *)

Lemma acc_push (tag : string) (es : list Emb) (ms : list Meta) (i : Z) (e : Emb) (md : Meta) :
  acc_ok tag (es, ms, i) -> item_id md = i -> mode md = Some tag ->
  acc_ok tag ((es ++ [e])%list, (ms ++ [md])%list, (i + 1)%Z).
Proof.
  simpl. intros [Hl [Hi Hn]] Hid Hmd. split; [|split].
  - rewrite !length_app. simpl. lia.
  - rewrite length_app. simpl. lia.
  - intros j md' H. destruct (Nat.lt_ge_cases j (length ms)) as [Hj|Hj].
    + rewrite nth_error_app1 in H by exact Hj. apply Hn, H.
    + rewrite nth_error_app2 in H by exact Hj.
      destruct (j - length ms)%nat as [|j'] eqn:Ej; simpl in H.
      * injection H as <-. split; [|exact Hmd]. rewrite Hid, Hi. f_equal. lia.
      * destruct j'; discriminate.
Qed.

Lemma add_faces_spec (p : string) (faces : list Detection) (es : list Emb) (ms : list Meta)
    (i : Z) :
  acc_ok "face" (es, ms, i) ->
  let '(es', ms', i') := fold_left (add_face p) faces (es, ms, i) in
  acc_ok "face" (es', ms', i') /\ es' = (es ++ map det_embedding faces)%list /\
  map image_path ms' = (map image_path ms ++ repeat p (length faces))%list.
Proof.
  revert es ms i; induction faces as [|d faces IH]; intros es ms i H; simpl.
  - rewrite !app_nil_r. split; [exact H | split; reflexivity].
  - specialize (IH (es ++ [det_embedding d])%list (ms ++ [face_meta i p d])%list (i + 1)%Z).
    destruct (fold_left (add_face p) faces _) as [[es' ms'] i'].
    destruct IH as [A [B C]].
    + apply acc_push; [exact H | reflexivity | reflexivity].
    + split; [exact A|]. split.
      * rewrite B, <- app_assoc. reflexivity.
      * rewrite C, map_app, <- app_assoc. reflexivity.
Qed.

Lemma index_step_spec (ex : Extractor) (mode_ p : string) (es : list Emb) (ms : list Meta)
    (i : Z) :
  acc_ok (mode_tag mode_) (es, ms, i) ->
  let '(es', ms', i') := index_step ex mode_ (es, ms, i) p in
  acc_ok (mode_tag mode_) (es', ms', i') /\
  es' = (es ++ image_vectors ex mode_ p)%list /\
  map image_path ms' = (map image_path ms ++ image_records ex mode_ p)%list.
Proof.
  intros H. unfold index_step, image_vectors, image_records.
  unfold mode_tag in *. destruct (String.eqb mode_ "full_image").
  - destruct (get_full_image_embedding ex p) as [e|ex0].
    + split; [apply acc_push; [exact H | reflexivity | reflexivity]|].
      split; [reflexivity|]. rewrite map_app. reflexivity.
    + rewrite !app_nil_r. split; [exact H | split; reflexivity].
  - destruct (detect_faces ex p) as [faces|ex0].
    + apply add_faces_spec, H.
    + rewrite !app_nil_r. split; [exact H | split; reflexivity].
Qed.

Lemma index_loop_spec (ex : Extractor) (mode_ : string) (paths : list string)
    (es : list Emb) (ms : list Meta) (i : Z) :
  acc_ok (mode_tag mode_) (es, ms, i) ->
  let '(es', ms', i') := fold_left (index_step ex mode_) paths (es, ms, i) in
  acc_ok (mode_tag mode_) (es', ms', i') /\
  es' = (es ++ flat_map (image_vectors ex mode_) paths)%list /\
  map image_path ms' = (map image_path ms ++ flat_map (image_records ex mode_) paths)%list.
Proof.
  revert es ms i; induction paths as [|p paths IH]; intros es ms i H; simpl.
  - rewrite !app_nil_r. split; [exact H | split; reflexivity].
  - pose proof (index_step_spec ex mode_ p es ms i H) as Hs.
    destruct (index_step ex mode_ (es, ms, i) p) as [[es1 ms1] i1].
    destruct Hs as [A [B C]].
    specialize (IH es1 ms1 i1 A).
    destruct (fold_left (index_step ex mode_) paths (es1, ms1, i1)) as [[es' ms'] i'].
    destruct IH as [D [E F]]. split; [exact D|]. split.
    + rewrite E, B, app_assoc. reflexivity.
    + rewrite F, C, app_assoc. reflexivity.
Qed.

Lemma index_items_spec (ex : Extractor) (mode_ : string) (paths : list string) :
  let '(embs, metas, n) := index_items ex mode_ paths in
  acc_ok (mode_tag mode_) (embs, metas, n) /\
  embs = flat_map (image_vectors ex mode_) paths /\
  map image_path metas = flat_map (image_records ex mode_) paths.
Proof.
  unfold index_items.
  assert (H0 : acc_ok (mode_tag mode_) ([], [], 0%Z)).
  { simpl. split; [reflexivity|]. split; [reflexivity|]. intros j md H.
    destruct j; discriminate. }
  pose proof (index_loop_spec ex mode_ paths [] [] 0%Z H0) as H.
  destruct (fold_left (index_step ex mode_) paths ([], [], 0%Z)) as [[es ms] i].
  exact H.
Qed.

(** X21: the offline loop records exactly one metadata entry per stored
    vector: [item_id] runs 0, 1, 2, ... in order and ends at the count,
    every entry carries the run's mode ('full_image', or 'face' for any
    other mode string), and image by image in order it stores the whole
    image's vector, or one vector per detected face, or nothing for an
    image whose model call raised. *)
Theorem offline_loop_records (ex : Extractor) (mode_ : string) (paths : list string) :
  let '(embs, metas, n) := index_items ex mode_ paths in
  length embs = length metas /\ n = Z.of_nat (length metas) /\
  (forall j md, nth_error metas j = Some md ->
     item_id md = Z.of_nat j /\ mode md = Some (mode_tag mode_)) /\
  embs = flat_map (image_vectors ex mode_) paths /\
  map image_path metas = flat_map (image_records ex mode_) paths.
Proof.
  pose proof (index_items_spec ex mode_ paths) as H.
  destruct (index_items ex mode_ paths) as [[embs metas] n].
  destruct H as [[A [B C]] [D E]]. split; [exact A|]. split; [exact B|].
  split; [exact C|]. split; [exact D | exact E].
Qed.

Lemma Forall_width (w : nat) (l : list Emb) :
  forallb (fun r => Nat.eqb (length r) w) l = true -> Forall (fun r => length r = w) l.
Proof.
  intros H. apply Forall_forall. intros r Hr.
  rewrite forallb_forall in H. apply Nat.eqb_eq, H, Hr.
Qed.

Lemma index_items_nil (ex : Extractor) (mode_ : string) :
  index_items ex mode_ [] = ([], [], 0%Z).
Proof. reflexivity. Qed.

(** X22: when some image of the listing yields vectors, all of width 512,
    and [faiss.index] and [metadata.json] under the output directory name
    files in an existing directory ([writable_path]), the pipeline
    succeeds, and a
    [PhotoRetriever] on its [faiss.index] and [metadata.json] loads the
    stored vectors, in order, as an index of width 512 together with the
    stored metadata, one record per vector. *)
Theorem offline_index_then_retriever_loads (ex : Extractor) (entries exts : list string)
    (out mode_ : string) (fs : FS) (embs : list Emb) (metas : list Meta) (n : Z) :
  index_items ex mode_ (find_images entries exts) = (embs, metas, n) ->
  embs <> [] -> Forall (fun r => length r = 512%nat) embs ->
  writable_path fs (path_join out "faiss.index") = true ->
  writable_path fs (path_join out "metadata.json") = true ->
  exists fs', process_event_photos ex entries out mode_ exts fs = (Ok tt, fs') /\
    retriever_init fs' (path_join out "faiss.index") (path_join out "metadata.json") =
      Ok {| embedding_dim := 512; index := Some {| ix_d := 512; ix_vectors := embs |};
            metadata := metas |} /\
    length metas = length embs.
Proof.
  intros Hi Hne Hw Hwi Hwm.
  assert (Hout : out <> ""%string).
  { intros ->. apply writable_dirname in Hwi. apply Hwi. reflexivity. }
  pose proof (index_items_spec ex mode_ (find_images entries exts)) as Hspec.
  rewrite Hi in Hspec. destruct Hspec as [[Hlen _] _].
  destruct (output_paths out Hout) as [Hdi [Hdm Hneq]].
  set (ip := path_join out "faiss.index") in *.
  set (mp := path_join out "metadata.json") in *.
  set (ix := {| ix_d := 512; ix_vectors := embs |}).
  set (m1 := set_index (new_manager 512) (Some ix)).
  destruct (makedirs_ok out fs Hout) as [fs2 [Emk Fmk]].
  destruct (save_index_ok m1 ix fs2 ip eq_refl Hdi) as [fs3 [F3 E3]].
  destruct (save_metadata_ok m1 metas (write_file ip (FIndex ix) fs3) mp Hdm)
    as [fs4 [F4 E4]].
  exists (write_file mp (FMetaJson metas) fs4). split; [|split].
  - unfold process_event_photos.
    destruct (find_images entries exts) as [|p0 ps] eqn:Ep.
    { rewrite index_items_nil in Hi. injection Hi as <- _ _. contradiction. }
    rewrite Hi. destruct embs as [|e0 es]; [contradiction|].
    assert (Hw0 : length e0 = 512%nat) by (inversion Hw; assumption).
    assert (Hnp : np_array_2d (e0 :: es) = Ok {| a_cols := 512; a_rows := e0 :: es |}).
    { unfold np_array_2d. rewrite Hw0.
      replace (forallb _ _) with true; [reflexivity|]. symmetry.
      apply forallb_forall. intros r Hr. rewrite Forall_forall in Hw.
      apply Nat.eqb_eq, Hw, Hr. }
    assert (Hc : create_index {| a_cols := 512; a_rows := e0 :: es |} (new_manager 512, fs)
                 = (Ok tt, (m1, fs))) by reflexivity.
    rewrite Hnp. cbv beta iota zeta. rewrite Hc. cbv beta iota zeta.
    rewrite Emk. cbv beta iota zeta. fold ip mp. rewrite E3. cbv beta iota zeta.
    rewrite E4. reflexivity.
  - unfold retriever_init.
    rewrite load_index_file with (ix := ix).
    + rewrite load_metadata_file with (md := metas); [reflexivity|].
      unfold write_file. simpl. apply dict_set_get.
    + rewrite dict_get_write_other by exact Hneq. rewrite F4.
      unfold write_file. simpl. apply dict_set_get.
  - symmetry. exact Hlen.
Qed.

Lemma offline_index_then_retriever_loads_witness :
  let it := index_items ex_ok "face" (find_images ev_entries default_exts) in
  exists fs', process_event_photos ex_ok ev_entries "data/embeddings" "face" default_exts
                fs_selfies = (Ok tt, fs') /\
    retriever_init fs' (path_join "data/embeddings" "faiss.index")
      (path_join "data/embeddings" "metadata.json") =
      Ok {| embedding_dim := 512;
            index := Some {| ix_d := 512; ix_vectors := fst (fst it) |};
            metadata := snd (fst it) |} /\
    length (snd (fst it)) = length (fst (fst it)).
Proof.
  intros it.
  apply (offline_index_then_retriever_loads ex_ok ev_entries default_exts "data/embeddings"
           "face" fs_selfies (fst (fst it)) (snd (fst it)) (snd it)).
  - vm_compute. reflexivity.
  - vm_compute. discriminate.
  - apply Forall_width. vm_compute. reflexivity.
  - vm_compute. reflexivity.
  - vm_compute. reflexivity.
Defined.

(** X23: when no image of the listing yields a vector (no file with a
    listed extension, every model call raised, or no face found), the
    pipeline returns without writing anything. *)
Theorem offline_nothing_indexed (ex : Extractor) (entries exts : list string)
    (out mode_ : string) (fs : FS) :
  fst (fst (index_items ex mode_ (find_images entries exts))) = [] ->
  process_event_photos ex entries out mode_ exts fs = (Ok tt, fs).
Proof.
  intros H. unfold process_event_photos.
  destruct (find_images entries exts) as [|p0 ps]; [reflexivity|].
  destruct (index_items ex mode_ (p0 :: ps)) as [[embs metas] n].
  simpl in H. subst embs. reflexivity.
Qed.

Lemma offline_nothing_indexed_witness :
  fst (fst (index_items ex_fail "face" (find_images ev_entries default_exts))) = [] /\
  process_event_photos ex_fail ev_entries "out" "face" default_exts fs_selfies
    = (Ok tt, fs_selfies).
Proof.
  assert (H : fst (fst (index_items ex_fail "face" (find_images ev_entries default_exts))) = [])
    by (vm_compute; reflexivity).
  split; [exact H | apply (offline_nothing_indexed _ _ _ "out" _ fs_selfies H)].
Defined.

(** X24: when the stored vectors are not all of width 512 (ragged rows, or
    a model of another width), the pipeline raises [ValueError], from
    [np.array] or from [create_index], before it writes anything. *)
Theorem offline_wrong_width_raises (ex : Extractor) (entries exts : list string)
    (out mode_ : string) (fs : FS) :
  ~ Forall (fun r => length r = 512%nat) (fst (fst (index_items ex mode_ (find_images entries exts)))) ->
  process_event_photos ex entries out mode_ exts fs = (Raise ValueError, fs).
Proof.
  intros H. unfold process_event_photos.
  destruct (find_images entries exts) as [|p0 ps].
  { exfalso. apply H. constructor. }
  destruct (index_items ex mode_ (p0 :: ps)) as [[embs metas] n]. simpl in H.
  destruct embs as [|e0 es]; [exfalso; apply H; constructor|].
  unfold np_array_2d.
  destruct (forallb (fun r => Nat.eqb (length r) (length e0)) (e0 :: es)) eqn:Ef;
    [|reflexivity].
  unfold create_index, bind, get, raise. simpl.
  destruct (Nat.eqb (length e0) 512) eqn:Ew; [|reflexivity].
  exfalso. apply H. apply Forall_forall. intros r Hr.
  rewrite forallb_forall in Ef. apply Nat.eqb_eq in Ew.
  rewrite <- Ew. apply Nat.eqb_eq, Ef, Hr.
Qed.

Lemma offline_wrong_width_raises_witness :
  ~ Forall (fun r => length r = 512%nat)
      (fst (fst (index_items ex_narrow "full_image" (find_images ev_entries default_exts)))) /\
  process_event_photos ex_narrow ev_entries "out" "full_image" default_exts fs_selfies
    = (Raise ValueError, fs_selfies).
Proof.
  assert (H : ~ Forall (fun r => length r = 512%nat)
      (fst (fst (index_items ex_narrow "full_image" (find_images ev_entries default_exts))))).
  { vm_compute. intros C. inversion C as [|? ? Hx _]. discriminate. }
  split; [exact H | apply (offline_wrong_width_raises _ _ _ "out" _ fs_selfies H)].
Defined.

(** X25: with [output_dir = ''] and vectors to store, [os.makedirs('')]
    raises [FileNotFoundError] and nothing is written. *)
Theorem offline_empty_output_dir_raises (ex : Extractor) (entries exts : list string)
    (mode_ : string) (fs : FS) :
  fst (fst (index_items ex mode_ (find_images entries exts))) <> [] ->
  Forall (fun r => length r = 512%nat) (fst (fst (index_items ex mode_ (find_images entries exts)))) ->
  process_event_photos ex entries "" mode_ exts fs = (Raise FileNotFoundError, fs).
Proof.
  intros Hne Hw. unfold process_event_photos.
  destruct (find_images entries exts) as [|p0 ps].
  { exfalso. apply Hne. reflexivity. }
  destruct (index_items ex mode_ (p0 :: ps)) as [[embs metas] n]. simpl in Hne, Hw.
  destruct embs as [|e0 es]; [contradiction|].
  assert (Hw0 : length e0 = 512%nat) by (inversion Hw; assumption).
  unfold np_array_2d. rewrite Hw0.
  replace (forallb _ _) with true.
  - unfold create_index, bind, get, put. simpl. reflexivity.
  - symmetry. apply forallb_forall. intros r Hr. rewrite Forall_forall in Hw.
    apply Nat.eqb_eq, Hw, Hr.
Qed.

Lemma offline_empty_output_dir_raises_witness :
  process_event_photos ex_ok ev_entries "" "full_image" default_exts fs_selfies
    = (Raise FileNotFoundError, fs_selfies).
Proof.
  apply offline_empty_output_dir_raises.
  - vm_compute. discriminate.
  - apply Forall_width. vm_compute. reflexivity.
Defined.
